(** * Retirement Monte-Carlo engine ([retirement_simulation/sim.py])

    A shallow embedding of [run_sim] and of the data it works on, followed by
    the properties of the per-year trial-state transition and of the final
    reduction.

    Numbers.  The program computes with IEEE binary64 numbers (Python [float]
    and numpy [float64]).  The embedding idealises them as exact rationals in
    canonical form ([Qc]): every arithmetic operation is the exact one, there
    is no rounding, no infinity and no NaN.  The single place where the
    program itself produces a NaN from finite inputs (the reduction of an
    empty population, [n_sims = 0]) is kept, as [None].  Python integers are
    unbounded ([Z]); the skip counters live in a numpy [int64] array, and the
    embedding keeps them in [Z]: they are only ever decremented, and only
    while strictly positive, so a counter that fits at the start fits
    throughout.  The numbers of a plan are taken to be finite and within the
    range of binary64, so that [float(...)] and arithmetic mixing integers
    and floats do not overflow; the properties of ill-formed plans are stated
    so that they do not depend on this.  Where rounding decides a property
    the operation is given in binary64 as well: line 67, the success rate
    ([Binary64.success_rate]).

    Randomness.  [np.random.normal] reads and advances the global generator.
    The embedding threads the generator explicitly: a state of an arbitrary
    type [G] and a function producing one draw and the next state. *)

From Stdlib Require Import ZArith QArith Qcanon Qround Lia Lqa Permutation Sorted.
From stdpp Require Import base option list sorting gmap strings.

#[local] Open Scope Z_scope.
#[local] Open Scope Qc_scope.

(** ** Exact numbers *)

Module Num.

Definition of_Z (z : Z) : Qc := Q2Qc (inject_Z z).
Definition of_nat (n : nat) : Qc := of_Z (Z.of_nat n).

(** [x < y] and [x <= y] as the program evaluates them. *)
Definition ltb (x y : Qc) : bool :=
  match x ?= y with Lt => true | _ => false end.
Definition leb (x y : Qc) : bool :=
  match x ?= y with Gt => false | _ => true end.

(** [np.maximum(x, y)] on one element. *)
Definition max (x y : Qc) : Qc := if leb x y then y else x.

(** Python's [int(x)] on a float: truncation towards zero. *)
Definition trunc (q : Qc) : Z := Z.quot (Qnum q) (Zpos (Qden q)).

(** The number of elements of [np.arange(1, y + 1)]. *)
Definition arange_len (y : Qc) : nat := Z.to_nat (Qceiling y).

End Num.

(** ** Python values and exceptions *)

(** What [json.loads] yields for the documents the engine reads: integers,
    floats and objects.  (Strings, lists, booleans and null never occur in a
    plan field the engine touches and are left out.) *)
#[warnings="-register-all"]
Inductive value : Type :=
| VInt (z : Z)
| VFloat (q : Qc)
| VDict (d : gmap string value).

Inductive exn : Type :=
| KeyError (key : string)
| TypeError
| ValueError.

Inductive result (A : Type) : Type :=
| Ok (a : A)
| Raise (e : exn).
Arguments Ok {A} a.
Arguments Raise {A} e.

#[global] Instance result_ret : MRet result := @Ok.
#[global] Instance result_bind : MBind result := fun A B f m =>
  match m with
  | Ok a => f a
  | Raise e => Raise e
  end.

(** [d[k]] *)
Definition getitem (d : value) (k : string) : result value :=
  match d with
  | VDict m =>
      match m !! k with
      | Some v => Ok v
      | None => Raise (KeyError k)
      end
  | _ => Raise TypeError
  end.

(** [d[k1][k2]] *)
Definition getitem2 (d : value) (k1 k2 : string) : result value :=
  s ← getitem d k1; getitem s k2.

(** A value used as a number: in arithmetic, in a comparison, or under
    [float(...)]. *)
Definition num_of (v : value) : result Qc :=
  match v with
  | VInt z => Ok (Num.of_Z z)
  | VFloat q => Ok q
  | VDict _ => Raise TypeError
  end.

(** [int(v)] *)
Definition int_of (v : value) : result Z :=
  match v with
  | VInt z => Ok z
  | VFloat q => Ok (Num.trunc q)
  | VDict _ => Raise TypeError
  end.

(** ** Scenario *)

Record Scenario : Type := {
  name : string;
  avg_return : Qc;
  vol : Qc;
  raise_rate : Qc;
  inflation : Qc
}.

(** ** Output reduction *)

Module Stats.

(** [np.sum(portfolios > 0)] *)
Definition count_pos (l : list Qc) : nat :=
  length (filter (fun p => Num.ltb 0 p = true) l).

(** [np.sum(portfolios > 0) / n_sims * 100]; NaN for an empty population. *)
Definition success_rate (l : list Qc) (n_sims : nat) : option Qc :=
  match n_sims with
  | O => None
  | S _ => Some (Num.of_nat (count_pos l) / Num.of_nat n_sims * Num.of_Z 100)
  end.

Fixpoint insert (x : Qc) (l : list Qc) : list Qc :=
  match l with
  | [] => [x]
  | y :: l' => if Num.leb x y then x :: l else y :: insert x l'
  end.

Fixpoint sort (l : list Qc) : list Qc :=
  match l with
  | [] => []
  | x :: l' => insert x (sort l')
  end.

(** [np.median]: the middle element of the sorted data, or the mean of the
    two middle elements; NaN for empty data. *)
Definition median (l : list Qc) : option Qc :=
  let s := sort l in
  let n := length l in
  match n with
  | O => None
  | S _ =>
      if Nat.odd n then Some (nth (n / 2) s 0)
      else Some ((nth (n / 2 - 1) s 0 + nth (n / 2) s 0) / Num.of_Z 2)
  end.

End Stats.

(** ** The engine *)

Section Engine.

(** The generator behind [np.random.normal]: [draw g loc scale] is one
    sample and the generator's next state. *)
Context {G : Type} (draw : G -> Qc -> Qc -> Qc * G).

(** [size] successive draws, in index order. *)
Fixpoint draws (g : G) (loc scale : Qc) (size : nat) : list Qc * G :=
  match size with
  | O => ([], g)
  | S k =>
      let '(x, g1) := draw g loc scale in
      let '(xs, g2) := draws g1 loc scale k in
      (x :: xs, g2)
  end.

(** [np.random.normal(loc, scale, size)]; numpy rejects a negative scale. *)
Definition random_normal (g : G) (loc scale : Qc) (size : nat)
  : result (list Qc * G) :=
  if Num.ltb scale 0 then Raise ValueError else Ok (draws g loc scale size).

(** The trial population, with the generator it draws from. *)
Record population : Type := {
  rng : G;
  portfolios : list Qc;
  skips : list Z
}.

(** What lines 28-35 compute before the loop. *)
Record setup : Type := {
  curr_age : Qc;
  ret_age : value;
  years : Qc;
  portfolio_current : Qc;
  emergency_savings : Z
}.

Definition prepare (plan : value) : result setup :=
  curr ← getitem plan "CURRENT AGE";
  ret ← getitem2 plan "RETIREMENT" "RETIREMENT AGE";
  death ← getitem2 plan "RETIREMENT" "DEATH AGE";
  d ← num_of death;
  c ← num_of curr;
  pc ← getitem2 plan "PORTFOLIO" "CURRENT";
  pc ← num_of pc;
  es ← getitem2 plan "RETIREMENT" "EMERGENCY SAVINGS";
  es ← int_of es;
  Ok {| curr_age := c; ret_age := ret; years := d - c;
        portfolio_current := pc; emergency_savings := es |}.

Definition initial (g : G) (n_sims : nat) (s : setup) : population :=
  {| rng := g;
     portfolios := replicate n_sims (portfolio_current s);
     skips := replicate n_sims (emergency_savings s) |}.

Section Year.

Variables (n_sims : nat) (plan : value) (scen : Scenario) (s : setup).

(** Line 46. *)
Definition contribution (year_idx : nat) : result Qc :=
  md ← getitem2 plan "PORTFOLIO" "MONTHLY DEPOSIT";
  md ← num_of md;
  Ok ((md * Num.of_Z 12) * ((1 + raise_rate scen) ^ year_idx)).

(** Lines 50-53. *)
Definition net_withdrawal (year_idx : nat) : result Qc :=
  spend ← getitem2 plan "RETIREMENT" "ANNUAL SPEND";
  spend ← num_of spend;
  ss ← getitem2 plan "RETIREMENT" "SOCIAL SECURITY";
  ss ← num_of ss;
  div ← getitem2 plan "PORTFOLIO" "ANNUAL DIVIDENDS";
  div ← num_of div;
  let inf_spend := spend * ((1 + inflation scen) ^ year_idx) in
  let inf_ss := ss * ((1 + inflation scen) ^ year_idx) in
  let inf_div := div * ((1 + inflation scen) ^ year_idx) in
  Ok (inf_spend - inf_ss - inf_div).

(** Line 56, one trial. *)
Definition should_withdraw (market_return : Qc) (skip : Z) : bool :=
  Num.ltb 0 market_return || (skip <=? 0)%Z.

(** Line 58, one trial. *)
Definition withdraw (nw : Qc) (p : Qc) (w : bool) : Qc :=
  if w then p - nw else p.

(** Line 61, one trial ([p] is the balance after line 58). *)
Definition used_skip (w : bool) (p : Qc) : bool :=
  negb w && Num.ltb 0 p.

(** Line 62, one trial. *)
Definition spend_skip (skip : Z) (u : bool) : Z :=
  if u then (skip - 1)%Z else skip.

(** Lines 41-42: the market step.  The returns are handed on, the
    retirement branch reads them again. *)
Definition market_step (st : population) : result (list Qc * population) :=
  '(market_returns, g) ← random_normal (rng st) (avg_return scen) (vol scen) n_sims;
  Ok (market_returns,
      {| rng := g;
         portfolios := zip_with (fun p r => p * (1 + r)) (portfolios st) market_returns;
         skips := skips st |}).

(** Lines 44-62: the cash flow of the year's phase. *)
Definition cash_flow_step (year_idx : nat) (market_returns : list Qc)
    (st : population) : result population :=
  let age := curr_age s + Num.of_nat year_idx in
  ra ← num_of (ret_age s);
  if Num.leb age ra then
    c ← contribution year_idx;
    Ok {| rng := rng st;
          portfolios := (fun p => p + c) <$> portfolios st;
          skips := skips st |}
  else
    nw ← net_withdrawal year_idx;
    let sw := zip_with should_withdraw market_returns (skips st) in
    let ps := zip_with (withdraw nw) (portfolios st) sw in
    let us := zip_with used_skip sw ps in
    Ok {| rng := rng st;
          portfolios := ps;
          skips := zip_with spend_skip (skips st) us |}.

(** Line 65: the floor. *)
Definition clamp_step (st : population) : population :=
  {| rng := rng st;
     portfolios := (fun p => Num.max p 0) <$> portfolios st;
     skips := skips st |}.

(** One iteration of the loop body, lines 38-65. *)
Definition year_step (year_idx : nat) (st : population) : result population :=
  '(market_returns, st1) ← market_step st;
  st2 ← cash_flow_step year_idx market_returns st1;
  Ok (clamp_step st2).

(** The loop over the given year indices. *)
Fixpoint run_years (idxs : list nat) (st : population) : result population :=
  match idxs with
  | [] => Ok st
  | year_idx :: rest => st' ← year_step year_idx st; run_years rest st'
  end.

End Year.

(** The population after the first [k] years of a run (the whole loop for
    [k] the number of years). *)
Definition state_after (g : G) (n_sims : nat) (plan : value) (scen : Scenario)
    (k : nat) : result population :=
  s ← prepare plan;
  run_years n_sims plan scen s (seq 1 k) (initial g n_sims s).

(** Lines 28-65: the population the loop leaves. *)
Definition simulate (g : G) (n_sims : nat) (plan : value) (scen : Scenario)
  : result population :=
  s ← prepare plan;
  run_years n_sims plan scen s (seq 1 (Num.arange_len (years s)))
    (initial g n_sims s).

(** [run_sim]: the success rate and the median ending balance. *)
Definition run_sim (g : G) (n_sims : nat) (plan : value) (scen : Scenario)
  : result (option Qc * option Qc) :=
  st ← simulate g n_sims plan scen;
  Ok (Stats.success_rate (portfolios st) n_sims, Stats.median (portfolios st)).

End Engine.

(** * Properties *)

(** ** Comparisons and the floor on exact numbers *)

Module NumFacts.

Lemma ltb_lt (x y : Qc) : Num.ltb x y = true <-> x < y.
Proof.
  unfold Num.ltb. rewrite Qclt_alt.
  destruct (x ?= y); split; congruence.
Qed.

Lemma leb_le (x y : Qc) : Num.leb x y = true <-> x <= y.
Proof.
  unfold Num.leb. rewrite Qcle_alt.
  destruct (x ?= y); split; congruence.
Qed.

Lemma ltb_ge (x y : Qc) : Num.ltb x y = false <-> y <= x.
Proof.
  split; intros H.
  - apply Qcnot_lt_le. intros Hlt. apply ltb_lt in Hlt. congruence.
  - destruct (Num.ltb x y) eqn:E; [|reflexivity].
    apply ltb_lt in E. exfalso. exact (Qcle_not_lt _ _ H E).
Qed.

Lemma leb_gt (x y : Qc) : Num.leb x y = false <-> y < x.
Proof.
  split; intros H.
  - apply Qcnot_le_lt. intros Hle. apply leb_le in Hle. congruence.
  - destruct (Num.leb x y) eqn:E; [|reflexivity].
    apply leb_le in E. exfalso. exact (Qclt_not_le _ _ H E).
Qed.

Lemma max_floor (x : Qc) : 0 <= Num.max x 0.
Proof.
  unfold Num.max. destruct (Num.leb x 0) eqn:E.
  - apply Qcle_refl.
  - apply Qclt_le_weak, leb_gt, E.
Qed.

Lemma max_id (x : Qc) : 0 <= x -> Num.max x 0 = x.
Proof.
  intros H. unfold Num.max. destruct (Num.leb x 0) eqn:E; [|reflexivity].
  apply leb_le in E. now apply Qcle_antisym.
Qed.

End NumFacts.

(** ** The exception monad *)

Lemma bind_Ok {A B : Type} (m : result A) (f : A -> result B) (b : B) :
  m ≫= f = Ok b <-> exists a, m = Ok a /\ f a = Ok b.
Proof.
  destruct m as [a|e]; simpl; split.
  - intros H. now exists a.
  - now intros (a' & [= <-] & H).
  - discriminate.
  - now intros (a' & [=] & _).
Qed.

Lemma bind_Ok_l {A B : Type} (a : A) (f : A -> result B) : Ok a ≫= f = f a.
Proof. reflexivity. Qed.

(** ** The yearly transition *)

Section Transition.

Context {G : Type} (draw : G -> Qc -> Qc -> Qc * G).
Variables (n_sims : nat) (plan : value) (scen : Scenario) (s : setup).

Abbreviation population := (@population G).

(** The age the loop body computes at line 38. *)
Definition age_at (year_idx : nat) : Qc := curr_age s + Num.of_nat year_idx.

(** Both arrays hold one entry per trial. *)
Definition sized (st : population) : Prop :=
  length (portfolios st) = n_sims /\ length (skips st) = n_sims.

Lemma draws_length (g : G) (loc scale : Qc) (size : nat) :
  length (draws draw g loc scale size).1 = size.
Proof.
  revert g. induction size as [|k IH]; intros g; simpl; [reflexivity|].
  destruct (draw g loc scale) as [x g1].
  specialize (IH g1). destruct (draws draw g1 loc scale k) as [xs g2].
  simpl in *. now rewrite IH.
Qed.

Lemma market_step_Ok (st : population) (mr : list Qc) (st1 : population) :
  market_step draw n_sims scen st = Ok (mr, st1) ->
  mr = (draws draw (rng st) (avg_return scen) (vol scen) n_sims).1 /\
  portfolios st1 = zip_with (fun p r => p * (1 + r)) (portfolios st) mr /\
  skips st1 = skips st.
Proof.
  unfold market_step, random_normal. intros H.
  destruct (Num.ltb (vol scen) 0); [discriminate|]. simpl in H.
  destruct (draws draw _ _ _ _) as [xs g']. now inversion H.
Qed.

Lemma market_step_sized (st : population) (mr : list Qc) (st1 : population) :
  sized st -> market_step draw n_sims scen st = Ok (mr, st1) ->
  length mr = n_sims /\ sized st1.
Proof.
  intros [Hp Hs] H. apply market_step_Ok in H as (-> & Hp1 & Hs1).
  pose proof (draws_length (rng st) (avg_return scen) (vol scen) n_sims) as Hd.
  split; [exact Hd|]. split.
  - rewrite Hp1, length_zip_with, Hp, Hd. lia.
  - now rewrite Hs1.
Qed.

(** The two phases of [cash_flow_step], as equations. *)
Lemma cash_flow_accumulation (year_idx : nat) (mr : list Qc) (st : population) (ra : Qc) :
  num_of (ret_age s) = Ok ra -> age_at year_idx <= ra ->
  cash_flow_step plan scen s year_idx mr st =
    c ← contribution plan scen year_idx;
    Ok {| rng := rng st;
          portfolios := (fun p => p + c) <$> portfolios st;
          skips := skips st |}.
Proof.
  intros Hra Hage. unfold cash_flow_step. rewrite Hra. simpl.
  apply NumFacts.leb_le in Hage. unfold age_at in Hage. now rewrite Hage.
Qed.

Lemma cash_flow_retirement (year_idx : nat) (mr : list Qc) (st : population) (ra : Qc) :
  num_of (ret_age s) = Ok ra -> ra < age_at year_idx ->
  cash_flow_step plan scen s year_idx mr st =
    nw ← net_withdrawal plan scen year_idx;
    let sw := zip_with should_withdraw mr (skips st) in
    let ps := zip_with (withdraw nw) (portfolios st) sw in
    let us := zip_with used_skip sw ps in
    Ok {| rng := rng st;
          portfolios := ps;
          skips := zip_with spend_skip (skips st) us |}.
Proof.
  intros Hra Hage. unfold cash_flow_step. rewrite Hra. simpl.
  apply NumFacts.leb_gt in Hage. unfold age_at in Hage. now rewrite Hage.
Qed.

Lemma should_withdraw_iff (r : Qc) (k : Z) :
  should_withdraw r k = true <-> 0 < r \/ (k <= 0)%Z.
Proof.
  unfold should_withdraw. rewrite orb_true_iff, NumFacts.ltb_lt, Z.leb_le.
  reflexivity.
Qed.

Lemma should_withdraw_skip (r : Qc) (k : Z) :
  should_withdraw r k = false <-> r <= 0 /\ (0 < k)%Z.
Proof.
  unfold should_withdraw. rewrite orb_false_iff, NumFacts.ltb_ge, Z.leb_gt.
  reflexivity.
Qed.

(** What a retirement year does to trial [i]: the balance and the skip
    count it leaves, from the trial's return, balance and skip count. *)
Lemma retirement_trial (year_idx : nat) (mr : list Qc) (st st' : population)
    (ra : Qc) (i : nat) (r b : Qc) (k : Z) :
  num_of (ret_age s) = Ok ra -> ra < age_at year_idx ->
  cash_flow_step plan scen s year_idx mr st = Ok st' ->
  mr !! i = Some r -> portfolios st !! i = Some b -> skips st !! i = Some k ->
  exists nw, net_withdrawal plan scen year_idx = Ok nw /\
    let w := should_withdraw r k in
    portfolios st' !! i = Some (withdraw nw b w) /\
    skips st' !! i = Some (spend_skip k (used_skip w (withdraw nw b w))).
Proof.
  intros Hra Hage H Hr Hb Hk.
  rewrite (cash_flow_retirement _ _ _ _ Hra Hage) in H.
  apply bind_Ok in H as (nw' & Hnw & H). exists nw'. split; [exact Hnw|].
  simpl in H. injection H as <-. simpl.
  assert (Hsw : zip_with should_withdraw mr (skips st) !! i
                = Some (should_withdraw r k)).
  { rewrite lookup_zip_with, Hr. simpl. now rewrite Hk. }
  assert (Hps : zip_with (withdraw nw') (portfolios st)
                  (zip_with should_withdraw mr (skips st)) !! i
                = Some (withdraw nw' b (should_withdraw r k))).
  { rewrite lookup_zip_with, Hb. simpl. now rewrite Hsw. }
  split; [exact Hps|].
  rewrite lookup_zip_with, Hk. simpl.
  rewrite lookup_zip_with, Hsw. simpl. now rewrite Hps.
Qed.

(** A year is the market step, then the cash flow, then the floor. *)
Lemma year_step_stages (year_idx : nat) (st st' : population) :
  year_step draw n_sims plan scen s year_idx st = Ok st' <->
  exists mr st1 st2,
    market_step draw n_sims scen st = Ok (mr, st1) /\
    cash_flow_step plan scen s year_idx mr st1 = Ok st2 /\
    st' = clamp_step st2.
Proof.
  unfold year_step. rewrite bind_Ok. split.
  - intros ([mr st1] & Hm & H). apply bind_Ok in H as (st2 & Hc & [= <-]).
    now exists mr, st1, st2.
  - intros (mr & st1 & st2 & Hm & Hc & ->). exists (mr, st1). split; [exact Hm|].
    now rewrite Hc.
Qed.

(** C1. In a retirement-phase year (age > retirement age) the cash flow takes
    [net_withdrawal] from the balance a trial has after the market step when
    the trial's return is > 0 or its skip count is <= 0, and leaves that
    balance alone when the return is <= 0 and the skip count is > 0; so, for a
    non-zero [net_withdrawal], the balance is reduced by it if and only if the
    return is > 0 or the skip count is <= 0. *)
Theorem skip_policy_withdrawal (year_idx : nat) (st st' : population) (ra : Qc) :
  num_of (ret_age s) = Ok ra -> ra < age_at year_idx ->
  year_step draw n_sims plan scen s year_idx st = Ok st' ->
  exists mr st1 st2 nw,
    market_step draw n_sims scen st = Ok (mr, st1) /\
    cash_flow_step plan scen s year_idx mr st1 = Ok st2 /\
    st' = clamp_step st2 /\
    net_withdrawal plan scen year_idx = Ok nw /\
    forall (i : nat) (r b : Qc) (k : Z),
      mr !! i = Some r -> portfolios st1 !! i = Some b -> skips st1 !! i = Some k ->
      (0 < r \/ (k <= 0)%Z -> portfolios st2 !! i = Some (b - nw)) /\
      (r <= 0 /\ (0 < k)%Z -> portfolios st2 !! i = Some b) /\
      (nw <> 0 -> (portfolios st2 !! i = Some (b - nw) <-> 0 < r \/ (k <= 0)%Z)).
Proof.
  intros Hra Hage H. apply year_step_stages in H as (mr & st1 & st2 & Hm & Hc & ->).
  assert (exists nw, net_withdrawal plan scen year_idx = Ok nw) as [nw Hnw].
  { rewrite (cash_flow_retirement _ _ _ _ Hra Hage) in Hc.
    apply bind_Ok in Hc as (nw & Hnw & _). now exists nw. }
  exists mr, st1, st2, nw. do 4 (split; [assumption || reflexivity|]).
  intros i r b k Hr Hb Hk.
  destruct (retirement_trial _ _ _ _ _ _ _ _ _ Hra Hage Hc Hr Hb Hk)
    as (nw' & Hnw' & Hp & _).
  assert (nw' = nw) as -> by congruence. simpl in Hp.
  split; [|split].
  - intros Hw. apply should_withdraw_iff in Hw. now rewrite Hp, Hw.
  - intros Hw. apply should_withdraw_skip in Hw. now rewrite Hp, Hw.
  - intros Hnz. rewrite <- should_withdraw_iff. split.
    + intros Hp'. destruct (should_withdraw r k) eqn:E; [reflexivity|]. exfalso.
      rewrite Hp in Hp'. simpl in Hp'. injection Hp' as Hb'.
      apply Hnz. transitivity (b - (b - nw)); [ring|].
      rewrite <- Hb'. ring.
    + intros Hw. now rewrite Hp, Hw.
Qed.

(** C2. In a retirement-phase year, a trial that skips the withdrawal (return
    <= 0 and skip count > 0) has its skip count decremented by 1 exactly when
    its balance after the market step is strictly positive, and keeps its
    skip count when that balance is <= 0. *)
Theorem skip_budget_decrement (year_idx : nat) (st st' : population) (ra : Qc) :
  num_of (ret_age s) = Ok ra -> ra < age_at year_idx ->
  year_step draw n_sims plan scen s year_idx st = Ok st' ->
  exists mr st1 st2,
    market_step draw n_sims scen st = Ok (mr, st1) /\
    cash_flow_step plan scen s year_idx mr st1 = Ok st2 /\
    st' = clamp_step st2 /\
    forall (i : nat) (r b : Qc) (k : Z),
      mr !! i = Some r -> portfolios st1 !! i = Some b -> skips st1 !! i = Some k ->
      r <= 0 /\ (0 < k)%Z ->
      (0 < b -> skips st' !! i = Some (k - 1)%Z) /\
      (b <= 0 -> skips st' !! i = Some k) /\
      (skips st' !! i = Some (k - 1)%Z <-> 0 < b).
Proof.
  intros Hra Hage H. apply year_step_stages in H as (mr & st1 & st2 & Hm & Hc & ->).
  exists mr, st1, st2. do 3 (split; [assumption || reflexivity|]).
  intros i r b k Hr Hb Hk Hw.
  destruct (retirement_trial _ _ _ _ _ _ _ _ _ Hra Hage Hc Hr Hb Hk)
    as (nw & Hnw & _ & Hk').
  apply should_withdraw_skip in Hw. rewrite Hw in Hk'.
  unfold used_skip, withdraw in Hk'. simpl in *. rewrite Hk'. unfold spend_skip.
  destruct (Num.ltb 0 b) eqn:E.
  - apply NumFacts.ltb_lt in E. split; [reflexivity|]. split; [|easy].
    intros Hle. exfalso. exact (Qcle_not_lt _ _ Hle E).
  - apply NumFacts.ltb_ge in E. split; [|split; [reflexivity|]].
    + intros Hlt. exfalso. exact (Qcle_not_lt _ _ E Hlt).
    + split.
      * intros [= Hk'']. lia.
      * intros Hlt. exfalso. exact (Qcle_not_lt _ _ E Hlt).
Qed.

(** Which phase a successful cash-flow step went through. *)
Lemma cash_flow_cases (year_idx : nat) (mr : list Qc) (st st2 : population) :
  cash_flow_step plan scen s year_idx mr st = Ok st2 ->
  exists ra, num_of (ret_age s) = Ok ra /\
    ((age_at year_idx <= ra /\ exists c,
        contribution plan scen year_idx = Ok c /\
        portfolios st2 = (fun p => p + c) <$> portfolios st /\
        skips st2 = skips st) \/
     (ra < age_at year_idx /\ exists nw,
        net_withdrawal plan scen year_idx = Ok nw /\
        let sw := zip_with should_withdraw mr (skips st) in
        let ps := zip_with (withdraw nw) (portfolios st) sw in
        portfolios st2 = ps /\
        skips st2 = zip_with spend_skip (skips st) (zip_with used_skip sw ps))).
Proof.
  intros H. destruct (num_of (ret_age s)) as [ra|e] eqn:Hra.
  2:{ unfold cash_flow_step in H. rewrite Hra in H. discriminate. }
  exists ra. split; [reflexivity|].
  destruct (Num.leb (age_at year_idx) ra) eqn:E.
  - left. apply NumFacts.leb_le in E. split; [exact E|].
    rewrite (cash_flow_accumulation _ _ _ _ Hra E) in H.
    apply bind_Ok in H as (c & Hc & [= <-]). now exists c.
  - right. apply NumFacts.leb_gt in E. split; [exact E|].
    rewrite (cash_flow_retirement _ _ _ _ Hra E) in H.
    apply bind_Ok in H as (nw & Hnw & [= <-]). now exists nw.
Qed.

Lemma year_step_sized (year_idx : nat) (st st' : population) :
  sized st -> year_step draw n_sims plan scen s year_idx st = Ok st' -> sized st'.
Proof.
  intros Hst H. apply year_step_stages in H as (mr & st1 & st2 & Hm & Hc & ->).
  destruct (market_step_sized _ _ _ Hst Hm) as (Hmr & Hp1 & Hs1).
  apply cash_flow_cases in Hc as (ra & _ & [(_ & c & _ & Hp & Hs)|(_ & nw & _ & Hp & Hs)]).
  - split; simpl.
    + now rewrite Hp, !length_fmap.
    + now rewrite Hs.
  - simpl in Hp, Hs. split; simpl.
    + rewrite length_fmap, Hp, !length_zip_with. lia.
    + rewrite Hs, !length_zip_with. lia.
Qed.

(** What one year does to the skip count of trial [i]: it stays, or it drops
    by one from a strictly positive value. *)
Lemma year_step_skip (year_idx : nat) (st st' : population) (i : nat) (k : Z) :
  sized st -> year_step draw n_sims plan scen s year_idx st = Ok st' ->
  skips st !! i = Some k ->
  exists k', skips st' !! i = Some k' /\ (k' = k \/ (k' = k - 1 /\ 0 < k))%Z.
Proof.
  intros Hst H Hk. apply year_step_stages in H as (mr & st1 & st2 & Hm & Hc & ->).
  destruct (market_step_sized _ _ _ Hst Hm) as (Hmr & Hp1 & Hs1).
  apply market_step_Ok in Hm as (_ & _ & Hsk). rewrite <- Hsk in Hk.
  pose proof (lookup_lt_Some _ _ _ Hk) as Hi. rewrite Hs1 in Hi.
  destruct (lookup_lt_is_Some_2 mr i) as [r Hr]; [lia|].
  destruct (lookup_lt_is_Some_2 (portfolios st1) i) as [b Hb]; [lia|].
  pose proof Hc as Hc'.
  apply cash_flow_cases in Hc' as (ra & Hra & [(_ & c & _ & _ & Hs)|(Hage & _)]).
  - exists k. simpl. rewrite Hs. auto.
  - destruct (retirement_trial _ _ _ _ _ _ _ _ _ Hra Hage Hc Hr Hb Hk)
      as (nw & _ & _ & Hk').
    simpl in *. eexists. split; [exact Hk'|].
    unfold spend_skip, used_skip.
    destruct (should_withdraw r k) eqn:Hw; simpl; [now left|].
    apply should_withdraw_skip in Hw as [_ Hpos].
    unfold withdraw. destruct (Num.ltb 0 b); [right|left]; auto.
Qed.

(** The floor leaves no negative balance. *)
Lemma year_step_floor (year_idx : nat) (st st' : population) (b : Qc) :
  year_step draw n_sims plan scen s year_idx st = Ok st' ->
  b ∈ portfolios st' -> 0 <= b.
Proof.
  intros H Hb. apply year_step_stages in H as (mr & st1 & st2 & _ & _ & ->).
  simpl in Hb. apply list_elem_of_fmap in Hb as (p & -> & _).
  apply NumFacts.max_floor.
Qed.

Lemma run_years_app (l1 l2 : list nat) (st : population) :
  run_years draw n_sims plan scen s (l1 ++ l2) st =
  run_years draw n_sims plan scen s l1 st ≫= run_years draw n_sims plan scen s l2.
Proof.
  revert st. induction l1 as [|y l1 IH]; intros st; simpl; [reflexivity|].
  destruct (year_step draw n_sims plan scen s y st) as [st'|e]; simpl; auto.
Qed.

End Transition.

(** ** The run, year after year *)

Section Run.

Context {G : Type} (draw : G -> Qc -> Qc -> Qc * G).
Variables (g : G) (n_sims : nat) (plan : value) (scen : Scenario).

Abbreviation population := (@population G).
Abbreviation after := (state_after draw g n_sims plan scen).

Lemma state_after_prepare (k : nat) (st : population) :
  after k = Ok st -> exists s, prepare plan = Ok s.
Proof.
  unfold state_after. intros H. apply bind_Ok in H as (s & Hs & _). now exists s.
Qed.

Lemma state_after_0 (s : setup) :
  prepare plan = Ok s -> after 0 = Ok (initial g n_sims s).
Proof. unfold state_after. now intros ->. Qed.

(** Year [S k] of a run is [year_step] at the running index [S k], applied to
    what year [k] left. *)
Lemma state_after_S (s : setup) (k : nat) :
  prepare plan = Ok s ->
  after (S k) = after k ≫= year_step draw n_sims plan scen s (S k).
Proof.
  unfold state_after. intros ->. rewrite !bind_Ok_l.
  rewrite seq_S, run_years_app.
  destruct (run_years draw n_sims plan scen s (seq 1 k) (initial g n_sims s))
    as [st|e]; [|reflexivity].
  rewrite !bind_Ok_l. simpl.
  now destruct (year_step draw n_sims plan scen s (S k) st).
Qed.

Lemma state_after_step (k : nat) (st' : population) :
  after (S k) = Ok st' ->
  exists s st, prepare plan = Ok s /\ after k = Ok st /\
    year_step draw n_sims plan scen s (S k) st = Ok st'.
Proof.
  intros H. destruct (state_after_prepare _ _ H) as [s Hs].
  rewrite (state_after_S s k Hs) in H. apply bind_Ok in H as (st & Hst & H).
  now exists s, st.
Qed.

Lemma simulate_state_after (s : setup) :
  prepare plan = Ok s ->
  simulate draw g n_sims plan scen = after (Num.arange_len (years s)).
Proof. unfold simulate, state_after. now intros ->. Qed.

Lemma initial_sized (s : setup) : sized n_sims (initial g n_sims s).
Proof. split; simpl; apply length_replicate. Qed.

Lemma state_after_sized (k : nat) (st : population) :
  after k = Ok st -> sized n_sims st.
Proof.
  revert st. induction k as [|k IH]; intros st H.
  - destruct (state_after_prepare _ _ H) as [s Hs].
    rewrite (state_after_0 s Hs) in H. injection H as <-. apply initial_sized.
  - apply state_after_step in H as (s & st0 & _ & H0 & H).
    eapply year_step_sized; eauto.
Qed.

(** Over a whole run a skip count stays between its start and zero (or at
    its start, should that be negative). *)
Lemma state_after_skip_bounds (s : setup) (k : nat) (st : population) (i : nat) (a : Z) :
  prepare plan = Ok s -> after k = Ok st -> skips st !! i = Some a ->
  (Z.min 0 (emergency_savings s) <= a <= emergency_savings s)%Z.
Proof.
  intros Hs. revert st a. induction k as [|k IH]; intros st a H Ha.
  - rewrite (state_after_0 s Hs) in H. injection H as <-. simpl in Ha.
    apply lookup_replicate in Ha as [-> _]. lia.
  - apply state_after_step in H as (s' & st0 & Hs' & H0 & H).
    assert (s' = s) as -> by congruence.
    pose proof (state_after_sized _ _ H0) as [_ Hlen].
    pose proof (state_after_sized _ _ H0) as Hsz.
    destruct (lookup_lt_is_Some_2 (skips st0) i) as [a0 Ha0].
    { rewrite Hlen. destruct (year_step_sized _ _ _ _ _ _ _ _ Hsz H) as [_ Hlen'].
      rewrite <- Hlen'. eapply lookup_lt_Some, Ha. }
    destruct (year_step_skip _ _ _ _ _ _ _ _ _ _ Hsz H Ha0) as (a' & Ha' & Hstep).
    assert (a' = a) as -> by congruence.
    specialize (IH _ _ H0 Ha0). lia.
Qed.

(** C4. After every year of a run every balance is >= 0; the year's
    population is the floor ([max] with 0) of what the cash-flow step left,
    and the next year's market step starts from that floored population. *)
Theorem floor_every_year (k : nat) (st' : population) :
  after (S k) = Ok st' ->
  (forall b, b ∈ portfolios st' -> 0 <= b) /\
  (exists s st mr st1 st2,
     prepare plan = Ok s /\ after k = Ok st /\
     market_step draw n_sims scen st = Ok (mr, st1) /\
     cash_flow_step plan scen s (S k) mr st1 = Ok st2 /\
     portfolios st' = (fun p => Num.max p 0) <$> portfolios st2) /\
  (forall st'', after (S (S k)) = Ok st'' ->
     exists mr st1, market_step draw n_sims scen st' = Ok (mr, st1)).
Proof.
  intros H. pose proof H as H'.
  apply state_after_step in H' as (s & st & Hs & Hst & Hy).
  split; [|split].
  - intros b. eapply year_step_floor, Hy.
  - apply year_step_stages in Hy as (mr & st1 & st2 & Hm & Hc & ->).
    now exists s, st, mr, st1, st2.
  - intros st'' H''. apply state_after_step in H'' as (s' & st0 & _ & H0 & Hy').
    assert (st0 = st') as -> by congruence.
    apply year_step_stages in Hy' as (mr & st1 & _ & Hm & _). now exists mr, st1.
Qed.

(** C5. From one year of a run to the next the skip count of a trial does
    not grow: it stays, or drops by one from a strictly positive value; so it
    never turns negative, and over the whole run it stays between zero and
    [emergency_savings], its value at the start. *)
Theorem skip_count_monotone (s : setup) (k : nat) (st st' : population) (i : nat) (a : Z) :
  prepare plan = Ok s -> after k = Ok st -> after (S k) = Ok st' ->
  skips st !! i = Some a ->
  skips (initial g n_sims s) !! i = Some (emergency_savings s) /\
  exists a', skips st' !! i = Some a' /\
    (a' <= a)%Z /\
    (a' = a \/ (a' = a - 1 /\ 0 < a))%Z /\
    (0 <= a -> 0 <= a')%Z /\
    (a <= emergency_savings s)%Z /\
    (0 <= emergency_savings s -> 0 <= a')%Z.
Proof.
  intros Hs H H' Ha.
  pose proof (state_after_sized _ _ H) as Hsz.
  pose proof (state_after_skip_bounds s k st i a Hs H Ha) as Hb.
  apply state_after_step in H' as (s' & st0 & Hs' & H0 & Hy).
  assert (s' = s) as -> by congruence. assert (st0 = st) as -> by congruence.
  destruct (year_step_skip _ _ _ _ _ _ _ _ _ _ Hsz Hy Ha) as (a' & Ha' & Hstep).
  split.
  - simpl. apply lookup_replicate. split; [reflexivity|].
    destruct Hsz as [_ Hlen]. rewrite <- Hlen. eapply lookup_lt_Some, Ha.
  - exists a'. split; [exact Ha'|]. lia.
Qed.

Lemma contribution_Ok (year_idx : nat) (c : Qc) :
  contribution plan scen year_idx = Ok c <->
  exists md, getitem2 plan "PORTFOLIO" "MONTHLY DEPOSIT" ≫= num_of = Ok md /\
    c = md * Num.of_Z 12 * (1 + raise_rate scen) ^ year_idx.
Proof.
  unfold contribution. split.
  - intros H. apply bind_Ok in H as (v & Hv & H). apply bind_Ok in H as (md & Hmd & [= <-]).
    exists md. split; [|reflexivity]. now rewrite Hv.
  - intros (md & H & ->). apply bind_Ok in H as (v & Hv & Hmd).
    now rewrite Hv, !bind_Ok_l, Hmd.
Qed.

(** C7. In an accumulation year of a run (age <= retirement age), with [S k]
    the running year index counted from the start of the run, the cash flow
    adds [monthly_deposit * 12 * (1 + raise_rate) ^ S k] to the balance every
    trial has after the market step.  With all returns 0, a monthly deposit
    of 1000 and a raise rate of 0, the year takes a trial from a balance [b]
    to [b + 12000], also after the floor when [b] is not negative. *)
Theorem accumulation_contribution (s : setup) (ra : Qc) (k : nat) (st st' : population) :
  prepare plan = Ok s -> num_of (ret_age s) = Ok ra -> age_at s (S k) <= ra ->
  after k = Ok st -> after (S k) = Ok st' ->
  exists mr st1 st2 md,
    market_step draw n_sims scen st = Ok (mr, st1) /\
    cash_flow_step plan scen s (S k) mr st1 = Ok st2 /\
    st' = clamp_step st2 /\
    getitem2 plan "PORTFOLIO" "MONTHLY DEPOSIT" ≫= num_of = Ok md /\
    (forall i b, portfolios st1 !! i = Some b ->
       portfolios st2 !! i
       = Some (b + md * Num.of_Z 12 * (1 + raise_rate scen) ^ S k)) /\
    (md = Num.of_Z 1000 -> raise_rate scen = 0 -> (forall r, r ∈ mr -> r = 0) ->
     forall i b, portfolios st !! i = Some b ->
       portfolios st2 !! i = Some (b + Num.of_Z 12000) /\
       (0 <= b -> portfolios st' !! i = Some (b + Num.of_Z 12000))).
Proof.
  intros Hs Hra Hage H H'.
  pose proof (state_after_sized _ _ H) as Hsz.
  apply state_after_step in H' as (s' & st0 & Hs' & H0 & Hy).
  assert (s' = s) as -> by congruence. assert (st0 = st) as -> by congruence.
  apply year_step_stages in Hy as (mr & st1 & st2 & Hm & Hc & ->).
  pose proof Hc as Hc'.
  rewrite (cash_flow_accumulation _ _ _ _ _ _ _ Hra Hage) in Hc'.
  apply bind_Ok in Hc' as (c & Hcon & [= Hst2]).
  apply contribution_Ok in Hcon as (md & Hmd & ->).
  exists mr, st1, st2, md. do 4 (split; [assumption || reflexivity|]).
  assert (Hadd : forall i b, portfolios st1 !! i = Some b ->
    portfolios st2 !! i
    = Some (b + md * Num.of_Z 12 * (1 + raise_rate scen) ^ S k)).
  { intros i b Hb. rewrite <- Hst2. simpl. now rewrite list_lookup_fmap, Hb. }
  split; [exact Hadd|].
  intros -> Hrr Hzero i b Hb.
  destruct (market_step_sized draw n_sims scen st mr st1 Hsz Hm) as (Hmr & _).
  apply market_step_Ok in Hm as (_ & Hp1 & _).
  destruct (lookup_lt_is_Some_2 mr i) as [r Hr].
  { rewrite Hmr. destruct Hsz as [Hlen _]. rewrite <- Hlen. eapply lookup_lt_Some, Hb. }
  assert (r = 0) as -> by (eapply Hzero, list_elem_of_lookup_2, Hr).
  assert (Hb1 : portfolios st1 !! i = Some b).
  { rewrite Hp1, lookup_zip_with, Hb. simpl. rewrite Hr. simpl. f_equal. ring. }
  assert (Hc12 : Num.of_Z 1000 * Num.of_Z 12 * (1 + raise_rate scen) ^ S k
                 = Num.of_Z 12000).
  { rewrite Hrr. replace (1 + 0) with 1 by ring. rewrite Qcpower_1.
    now apply Qc_is_canon. }
  pose proof (Hadd _ _ Hb1) as Hb2. rewrite Hc12 in Hb2.
  split; [exact Hb2|].
  intros Hpos. unfold clamp_step. cbn [portfolios].
  rewrite list_lookup_fmap, Hb2. cbn [fmap option_fmap option_map]. f_equal.
  apply NumFacts.max_id.
  rewrite <- (Qcplus_0_l 0). apply Qcplus_le_compat; [exact Hpos|].
  now unfold Qcle.
Qed.

End Run.

(** ** The reduction *)

(** The median as the specification words it: the middle value of the data
    in ascending order, or the average of the two middle values when their
    number is even. *)
Definition is_median (l : list Qc) (m : Qc) : Prop :=
  exists sorted : list Qc,
    sorted ≡ₚ l /\ Sorted Qcle sorted /\
    let n := length l in
    if Nat.odd n then sorted !! (n / 2)%nat = Some m
    else exists a b, sorted !! (n / 2 - 1)%nat = Some a /\
                     sorted !! (n / 2)%nat = Some b /\
                     m = (a + b) / Num.of_Z 2.

Module StatsFacts.

#[local] Instance Qcle_trans_inst : Transitive Qcle := Qcle_trans.
#[local] Instance Qcle_antisym_inst : AntiSymm (=) Qcle := Qcle_antisym.

Lemma leb_total (x y : Qc) : Num.leb x y = false -> Num.leb y x = true.
Proof.
  intros H. apply NumFacts.leb_gt in H. now apply NumFacts.leb_le, Qclt_le_weak.
Qed.

Lemma insert_perm (x : Qc) (l : list Qc) : Stats.insert x l ≡ₚ x :: l.
Proof.
  induction l as [|y l IH]; simpl; [reflexivity|].
  destruct (Num.leb x y); [reflexivity|].
  rewrite IH. apply perm_swap.
Qed.

Lemma sort_perm (l : list Qc) : Stats.sort l ≡ₚ l.
Proof.
  induction l as [|x l IH]; simpl; [reflexivity|].
  now rewrite insert_perm, IH.
Qed.

Lemma insert_sorted (x : Qc) (l : list Qc) :
  Sorted Qcle l -> Sorted Qcle (Stats.insert x l).
Proof.
  induction 1 as [|y l Hl IH Hhd]; simpl.
  - repeat constructor.
  - destruct (Num.leb x y) eqn:E.
    + apply NumFacts.leb_le in E. repeat constructor; assumption.
    + apply leb_total, NumFacts.leb_le in E. constructor; [exact IH|].
      destruct Hhd as [|z l' Hyz]; simpl.
      * now constructor.
      * destruct (Num.leb x z); now constructor.
Qed.

Lemma sort_sorted (l : list Qc) : Sorted Qcle (Stats.sort l).
Proof.
  induction l as [|x l IH]; simpl; [constructor|]. now apply insert_sorted.
Qed.

Lemma sort_length (l : list Qc) : length (Stats.sort l) = length l.
Proof. apply Permutation_length, sort_perm. Qed.

(** Sorting forgets the order the data came in. *)
Lemma sort_permutation (l1 l2 : list Qc) :
  l1 ≡ₚ l2 -> Stats.sort l1 = Stats.sort l2.
Proof.
  intros H. apply (Sorted_unique Qcle); try apply sort_sorted.
  now rewrite !sort_perm.
Qed.

Lemma count_pos_le (l : list Qc) : (Stats.count_pos l <= length l)%nat.
Proof. apply length_filter. Qed.

Lemma count_pos_permutation (l1 l2 : list Qc) :
  l1 ≡ₚ l2 -> Stats.count_pos l1 = Stats.count_pos l2.
Proof. intros H. unfold Stats.count_pos. now rewrite H. Qed.

Lemma of_nat_this (n : nat) : (this (Num.of_nat n) == inject_Z (Z.of_nat n))%Q.
Proof. unfold Num.of_nat, Num.of_Z, Q2Qc. simpl. apply Qred_correct. Qed.

Lemma of_nat_nonzero (n : nat) : (0 < n)%nat -> Num.of_nat n <> 0.
Proof.
  intros Hn E. apply (f_equal this) in E.
  assert (Hq : (inject_Z (Z.of_nat n) == 0)%Q).
  { rewrite <- of_nat_this, E. reflexivity. }
  unfold Qeq in Hq. simpl in Hq. lia.
Qed.

(** The percentage of a part of [n] lies between 0 and 100. *)
Lemma rate_bounds (c n : nat) :
  (c <= n)%nat -> (0 < n)%nat ->
  0 <= Num.of_nat c / Num.of_nat n * Num.of_Z 100 /\
  Num.of_nat c / Num.of_nat n * Num.of_Z 100 <= Num.of_Z 100.
Proof.
  intros Hc Hn.
  assert (HC : (0 <= inject_Z (Z.of_nat c))%Q).
  { change 0%Q with (inject_Z 0). rewrite <- Zle_Qle. lia. }
  assert (HN : (0 < inject_Z (Z.of_nat n))%Q).
  { change 0%Q with (inject_Z 0). rewrite <- Zlt_Qlt. lia. }
  assert (HCN : (inject_Z (Z.of_nat c) <= inject_Z (Z.of_nat n))%Q).
  { rewrite <- Zle_Qle. lia. }
  assert (HX : (0 < / inject_Z (Z.of_nat n))%Q) by now apply Qinv_lt_0_compat.
  assert (HNX : (inject_Z (Z.of_nat n) * / inject_Z (Z.of_nat n) == 1)%Q).
  { apply Qmult_inv_r. intros E. rewrite E in HN. now apply Qlt_irrefl in HN. }
  unfold Qcle, Qcdiv, Qcmult, Qcinv, Num.of_nat, Num.of_Z, Q2Qc. simpl this.
  rewrite !Qred_correct.
  set (C := inject_Z (Z.of_nat c)) in *. set (N := inject_Z (Z.of_nat n)) in *.
  set (X := (/ N)%Q) in *.
  change (inject_Z 100) with 100%Q.
  split; nra.
Qed.


(** A population of equal balances. *)
Lemma insert_replicate (x : Qc) (n : nat) :
  Stats.insert x (replicate n x) = x :: replicate n x.
Proof.
  destruct n as [|n]; simpl; [reflexivity|].
  assert (Num.leb x x = true) as -> by apply NumFacts.leb_le, Qcle_refl.
  reflexivity.
Qed.

Lemma sort_replicate (x : Qc) (n : nat) :
  Stats.sort (replicate n x) = replicate n x.
Proof.
  induction n as [|n IH]; simpl; [reflexivity|]. now rewrite IH, insert_replicate.
Qed.

Lemma count_pos_replicate (x : Qc) (n : nat) :
  Stats.count_pos (replicate n x) = if Num.ltb 0 x then n else O.
Proof.
  unfold Stats.count_pos. induction n as [|n IH]; simpl.
  - now destruct (Num.ltb 0 x).
  - rewrite filter_cons. destruct (decide (Num.ltb 0 x = true)) as [E|E].
    + simpl. rewrite IH, E. reflexivity.
    + rewrite IH. now destruct (Num.ltb 0 x).
Qed.

Lemma median_replicate (x : Qc) (n : nat) :
  (1 <= n)%nat -> Stats.median (replicate n x) = Some x.
Proof.
  intros Hn. unfold Stats.median. rewrite sort_replicate, length_replicate.
  destruct n as [|n']; [lia|]. remember (S n') as n eqn:En.
  assert (Hnth : forall i, (i < n)%nat -> nth i (replicate n x) 0 = x).
  { intros i Hi. apply nth_lookup_Some, lookup_replicate. auto. }
  assert (Hhalf : (n / 2 < n)%nat) by (apply Nat.div_lt; lia).
  destruct (Nat.odd n); rewrite !Hnth by lia; [reflexivity|].
  f_equal. apply Qc_is_canon. unfold Qcdiv, Qcmult, Qcplus, Qcinv, Num.of_Z, Q2Qc.
  simpl this. rewrite !Qred_correct. field.
Qed.

End StatsFacts.

Lemma median_is_median (l : list Qc) (m : Qc) :
  Stats.median l = Some m -> is_median l m.
Proof.
  unfold Stats.median, is_median. intros H.
  exists (Stats.sort l). split; [apply StatsFacts.sort_perm|].
  split; [apply StatsFacts.sort_sorted|].
  pose proof (StatsFacts.sort_length l) as Hlen.
  destruct (length l) as [|n'] eqn:Hn; [discriminate|].
  remember (S n') as n eqn:En. cbv zeta.
  assert (Hhalf : (n / 2 < n)%nat) by (apply Nat.div_lt; lia).
  assert (Hmid : forall i, (i < n)%nat ->
            Stats.sort l !! i = Some (nth i (Stats.sort l) 0)).
  { intros i Hi. destruct (nth_lookup_or_length (Stats.sort l) i 0); [assumption|lia]. }
  destruct (Nat.odd n).
  - injection H as <-. now apply Hmid.
  - injection H as <-. eexists _, _. split; [apply Hmid; lia|].
    split; [now apply Hmid|reflexivity].
Qed.

(** C10. Reordering the final balances changes neither the success rate nor
    the median ending balance. *)
Theorem reduction_permutation (l1 l2 : list Qc) (n_sims : nat) :
  l1 ≡ₚ l2 ->
  Stats.success_rate l1 n_sims = Stats.success_rate l2 n_sims /\
  Stats.median l1 = Stats.median l2.
Proof.
  intros H. split.
  - unfold Stats.success_rate. now rewrite (StatsFacts.count_pos_permutation _ _ H).
  - unfold Stats.median.
    now rewrite (StatsFacts.sort_permutation _ _ H), (Permutation_length H).
Qed.

(** The rate is 100 only for a full count and 0 only for an empty one. *)
Lemma of_nat_inj (j k : nat) : Num.of_nat j = Num.of_nat k -> j = k.
Proof.
  intros H. apply (f_equal this) in H.
  assert (Hq : (inject_Z (Z.of_nat j) == inject_Z (Z.of_nat k))%Q).
  { rewrite <- !StatsFacts.of_nat_this, H. reflexivity. }
  apply (proj1 (inject_Z_injective _ _)) in Hq. lia.
Qed.

Lemma rate_full (c n : nat) :
  (0 < n)%nat ->
  Num.of_nat c / Num.of_nat n * Num.of_Z 100 = Num.of_Z 100 <-> c = n.
Proof.
  intros Hn. pose proof (StatsFacts.of_nat_nonzero n Hn) as Hnz. split.
  - intros H. apply of_nat_inj.
    transitivity (Num.of_nat c / Num.of_nat n * Num.of_Z 100 * Num.of_nat n / Num.of_Z 100).
    + field. split; first [exact Hnz | discriminate].
    + rewrite H. field. discriminate.
  - intros ->. now field.
Qed.

Lemma rate_null (c n : nat) :
  (0 < n)%nat ->
  Num.of_nat c / Num.of_nat n * Num.of_Z 100 = 0 <-> c = O.
Proof.
  intros Hn. pose proof (StatsFacts.of_nat_nonzero n Hn) as Hnz. split.
  - intros H. apply of_nat_inj. change (Num.of_nat 0) with 0.
    transitivity (Num.of_nat c / Num.of_nat n * Num.of_Z 100 * Num.of_nat n / Num.of_Z 100).
    + field. split; first [exact Hnz | discriminate].
    + rewrite H. field. discriminate.
  - intros ->. change (Num.of_nat 0) with 0. unfold Qcdiv. ring.
Qed.

Section Outputs.

Context {G : Type} (draw : G -> Qc -> Qc -> Qc * G).
Variables (g : G) (n_sims : nat) (plan : value) (scen : Scenario).

Lemma simulate_sized (st : @population G) :
  simulate draw g n_sims plan scen = Ok st -> sized n_sims st.
Proof.
  intros H. assert (exists s, prepare plan = Ok s) as [s Hs].
  { unfold simulate in H. apply bind_Ok in H as (s & Hs & _). now exists s. }
  rewrite (simulate_state_after draw g n_sims plan scen s Hs) in H.
  eapply state_after_sized, H.
Qed.

(** C6, as the program has it.  For a run of at least one trial that
    returns, the success rate lies between 0 and 100, it is 0 exactly when no
    final balance is > 0 and 100 exactly when all of them are, and the median
    ending balance is the median of the final balances: the middle one in
    ascending order, or the average of the two middle ones for an even number
    of trials. *)
Theorem outputs_reduction (rate med : option Qc) :
  (1 <= n_sims)%nat ->
  run_sim draw g n_sims plan scen = Ok (rate, med) ->
  exists (st : @population G) (r m : Qc),
    simulate draw g n_sims plan scen = Ok st /\
    length (portfolios st) = n_sims /\
    rate = Some r /\ med = Some m /\
    0 <= r /\ r <= Num.of_Z 100 /\
    (r = 0 <-> Stats.count_pos (portfolios st) = O) /\
    (r = Num.of_Z 100 <-> Stats.count_pos (portfolios st) = n_sims) /\
    is_median (portfolios st) m.
Proof.
  intros Hn H. unfold run_sim in H. apply bind_Ok in H as (st & Hst & [= <- <-]).
  pose proof (simulate_sized st Hst) as [Hlen _].
  destruct (Stats.median (portfolios st)) as [m|] eqn:Hm.
  2:{ unfold Stats.median in Hm. rewrite Hlen in Hm.
      destruct n_sims; [lia|]. now destruct (Nat.odd _). }
  destruct n_sims as [|n'] eqn:En; [lia|]. rewrite <- En in *.
  exists st, (Num.of_nat (Stats.count_pos (portfolios st)) / Num.of_nat n_sims
              * Num.of_Z 100), m.
  split; [exact Hst|]. split; [exact Hlen|].
  split; [now rewrite En|]. split; [reflexivity|].
  pose proof (StatsFacts.count_pos_le (portfolios st)) as Hc. rewrite Hlen in Hc.
  destruct (StatsFacts.rate_bounds _ _ Hc) as [H0 H100]; [lia|].
  split; [exact H0|]. split; [exact H100|].
  split; [apply rate_null; lia|]. split; [apply rate_full; lia|].
  now apply median_is_median.
Qed.

End Outputs.

(** ** A plan with no year to simulate *)

Lemma prepare_Ok (plan : value) (s : setup) :
  prepare plan = Ok s ->
  exists c d pc es,
    getitem plan "CURRENT AGE" ≫= num_of = Ok c /\
    getitem2 plan "RETIREMENT" "RETIREMENT AGE" = Ok (ret_age s) /\
    getitem2 plan "RETIREMENT" "DEATH AGE" ≫= num_of = Ok d /\
    getitem2 plan "PORTFOLIO" "CURRENT" ≫= num_of = Ok pc /\
    getitem2 plan "RETIREMENT" "EMERGENCY SAVINGS" ≫= int_of = Ok es /\
    s = {| curr_age := c; ret_age := ret_age s; years := d - c;
           portfolio_current := pc; emergency_savings := es |}.
Proof.
  unfold prepare. intros H.
  apply bind_Ok in H as (curr & Hcurr & H). apply bind_Ok in H as (ret & Hret & H).
  apply bind_Ok in H as (death & Hdeath & H). apply bind_Ok in H as (d & Hd & H).
  apply bind_Ok in H as (c & Hc & H). apply bind_Ok in H as (pcv & Hpcv & H).
  apply bind_Ok in H as (pc & Hpc & H). apply bind_Ok in H as (esv & Hesv & H).
  apply bind_Ok in H as (es & Hes & [= <-]).
  exists c, d, pc, es. simpl.
  rewrite Hcurr, Hret, Hdeath, Hpcv, Hesv, !bind_Ok_l. auto 10.
Qed.

(** Conversely: with the five fields there, and numbers, [prepare] succeeds. *)
Lemma prepare_fields (plan : value) (c d pc : Qc) (ra : value) (es : Z) :
  getitem plan "CURRENT AGE" ≫= num_of = Ok c ->
  getitem2 plan "RETIREMENT" "RETIREMENT AGE" = Ok ra ->
  getitem2 plan "RETIREMENT" "DEATH AGE" ≫= num_of = Ok d ->
  getitem2 plan "PORTFOLIO" "CURRENT" ≫= num_of = Ok pc ->
  getitem2 plan "RETIREMENT" "EMERGENCY SAVINGS" ≫= int_of = Ok es ->
  prepare plan = Ok {| curr_age := c; ret_age := ra; years := d - c;
                       portfolio_current := pc; emergency_savings := es |}.
Proof.
  intros Hc Hra Hd Hpc Hes. unfold prepare.
  apply bind_Ok in Hc as (vc & Hvc & Hc). apply bind_Ok in Hd as (vd & Hvd & Hd).
  apply bind_Ok in Hpc as (vp & Hvp & Hpc). apply bind_Ok in Hes as (ve & Hve & Hes).
  now rewrite Hvc, bind_Ok_l, Hra, bind_Ok_l, Hvd, bind_Ok_l, Hd, bind_Ok_l,
    Hc, bind_Ok_l, Hvp, bind_Ok_l, Hpc, bind_Ok_l, Hve, bind_Ok_l, Hes.
Qed.


Section NoYears.

Context {G : Type} (draw : G -> Qc -> Qc -> Qc * G).
Variables (g : G) (n_sims : nat) (plan : value) (scen : Scenario).

Lemma arange_len_nonpos (y : Qc) : y <= 0 -> Num.arange_len y = O.
Proof.
  intros H. unfold Num.arange_len.
  apply Qceiling_resp_le in H. change (Qceiling (this 0)) with 0%Z in H. lia.
Qed.

(** C8. When the plan's death age is not above its current age (the fields
    read before the loop being there), a run of at least one trial returns
    after zero year-steps, the generator untouched: the median ending balance
    is the plan's current portfolio, and the success rate is 100 when that is
    > 0 and 0 otherwise. *)
Theorem no_years_run (c d pc : Qc) (ra : value) (es : Z) :
  getitem plan "CURRENT AGE" ≫= num_of = Ok c ->
  getitem2 plan "RETIREMENT" "RETIREMENT AGE" = Ok ra ->
  getitem2 plan "RETIREMENT" "DEATH AGE" ≫= num_of = Ok d ->
  getitem2 plan "PORTFOLIO" "CURRENT" ≫= num_of = Ok pc ->
  getitem2 plan "RETIREMENT" "EMERGENCY SAVINGS" ≫= int_of = Ok es ->
  d <= c -> (1 <= n_sims)%nat ->
  exists s rate,
    prepare plan = Ok s /\
    Num.arange_len (years s) = O /\
    simulate draw g n_sims plan scen = Ok (initial g n_sims s) /\
    run_sim draw g n_sims plan scen = Ok (Some rate, Some pc) /\
    (0 < pc -> rate = Num.of_Z 100) /\
    (pc <= 0 -> rate = 0).
Proof.
  intros Hc Hra Hd Hpc Hes Hdc Hn.
  pose proof (prepare_fields plan c d pc ra es Hc Hra Hd Hpc Hes) as Hs.
  set (s := {| curr_age := c; ret_age := ra; years := d - c;
               portfolio_current := pc; emergency_savings := es |}) in *.
  assert (Hlen : Num.arange_len (years s) = O).
  { apply arange_len_nonpos. cbn [s years].
    apply Qcle_minus_iff. replace (0 + - (d - c)) with (c + - d) by ring.
    exact (proj1 (Qcle_minus_iff d c) Hdc). }
  assert (Hsim : simulate draw g n_sims plan scen = Ok (initial g n_sims s)).
  { unfold simulate. rewrite Hs, bind_Ok_l, Hlen. reflexivity. }
  exists s. eexists. split; [exact Hs|]. split; [exact Hlen|]. split; [exact Hsim|].
  unfold run_sim. rewrite Hsim, bind_Ok_l. cbn [initial portfolios s portfolio_current].
  rewrite StatsFacts.median_replicate by exact Hn.
  unfold Stats.success_rate. rewrite StatsFacts.count_pos_replicate.
  destruct n_sims as [|n'] eqn:En; [lia|]. rewrite <- En.
  assert (Hnz : Num.of_nat n_sims <> 0) by (apply StatsFacts.of_nat_nonzero; lia).
  split; [reflexivity|].
  destruct (Num.ltb 0 pc) eqn:E.
  - split; [intros _; now field|].
    intros Hle. apply NumFacts.ltb_lt in E. exfalso. exact (Qcle_not_lt _ _ Hle E).
  - split.
    + intros Hlt. apply NumFacts.ltb_ge in E. exfalso. exact (Qcle_not_lt _ _ E Hlt).
    + intros _. change (Num.of_nat 0) with 0. unfold Qcdiv. ring.
Qed.

End NoYears.

(** ** Replaying a run *)

(** What a run shows of its population: the balances and the skip counts
    (not the generator), or the exception. *)
Definition observe {G : Type} (r : result (@population G)) : result (list Qc * list Z) :=
  st ← r; Ok (portfolios st, skips st).

Section Replay.

Context {G1 G2 : Type}.
Context (draw1 : G1 -> Qc -> Qc -> Qc * G1) (draw2 : G2 -> Qc -> Qc -> Qc * G2).
Variables (n_sims : nat) (plan : value) (scen : Scenario).

(** Two generator states are related when, asked for the scenario's returns,
    they answer the same draw and move on to related states: from related
    states the two generators produce the same sequence of draws. *)
Variable R : G1 -> G2 -> Prop.
Hypothesis R_draw : forall a b, R a b ->
  (draw1 a (avg_return scen) (vol scen)).1 = (draw2 b (avg_return scen) (vol scen)).1 /\
  R (draw1 a (avg_return scen) (vol scen)).2 (draw2 b (avg_return scen) (vol scen)).2.

Definition same_population (st1 : @population G1) (st2 : @population G2) : Prop :=
  R (rng st1) (rng st2) /\ portfolios st1 = portfolios st2 /\ skips st1 = skips st2.

Definition same_result (r1 : result (@population G1)) (r2 : result (@population G2)) : Prop :=
  match r1, r2 with
  | Ok st1, Ok st2 => same_population st1 st2
  | Raise e1, Raise e2 => e1 = e2
  | _, _ => False
  end.

Lemma draws_same (a : G1) (b : G2) (size : nat) :
  R a b ->
  (draws draw1 a (avg_return scen) (vol scen) size).1
  = (draws draw2 b (avg_return scen) (vol scen) size).1 /\
  R (draws draw1 a (avg_return scen) (vol scen) size).2
    (draws draw2 b (avg_return scen) (vol scen) size).2.
Proof.
  revert a b. induction size as [|k IH]; intros a b Hab; simpl; [auto|].
  destruct (R_draw a b Hab) as [Hx Hn].
  destruct (draw1 a _ _) as [x1 a1], (draw2 b _ _) as [x2 b1]. simpl in Hx, Hn.
  specialize (IH a1 b1 Hn).
  destruct (draws draw1 a1 _ _ k) as [xs1 a2], (draws draw2 b1 _ _ k) as [xs2 b2].
  simpl in *. destruct IH as [-> ?]. now rewrite Hx.
Qed.

Lemma year_step_same (s : setup) (year_idx : nat) (st1 : @population G1) (st2 : @population G2) :
  same_population st1 st2 ->
  same_result (year_step draw1 n_sims plan scen s year_idx st1)
              (year_step draw2 n_sims plan scen s year_idx st2).
Proof.
  intros (Hr & Hp & Hs). unfold year_step, market_step, random_normal.
  destruct (Num.ltb (vol scen) 0); [reflexivity|]. rewrite !bind_Ok_l.
  destruct (draws_same (rng st1) (rng st2) n_sims Hr) as [Hd Hn].
  destruct (draws draw1 _ _ _ _) as [mr1 a], (draws draw2 _ _ _ _) as [mr2 b].
  simpl in Hd, Hn. subst mr2. rewrite !bind_Ok_l.
  unfold cash_flow_step. cbn [rng portfolios skips]. rewrite <- Hp, <- Hs.
  destruct (num_of (ret_age s)) as [ra|e]; [|reflexivity]. rewrite !bind_Ok_l.
  destruct (Num.leb _ ra).
  - destruct (contribution plan scen year_idx) as [c|e]; [|reflexivity].
    rewrite !bind_Ok_l. now repeat split.
  - destruct (net_withdrawal plan scen year_idx) as [nw|e]; [|reflexivity].
    rewrite !bind_Ok_l. now repeat split.
Qed.

Lemma run_years_same (s : setup) (idxs : list nat) (st1 : @population G1) (st2 : @population G2) :
  same_population st1 st2 ->
  same_result (run_years draw1 n_sims plan scen s idxs st1)
              (run_years draw2 n_sims plan scen s idxs st2).
Proof.
  revert st1 st2. induction idxs as [|y idxs IH]; intros st1 st2 H; simpl; [exact H|].
  pose proof (year_step_same s y st1 st2 H) as Hy.
  destruct (year_step draw1 _ _ _ _ _ st1) as [st1'|e1],
           (year_step draw2 _ _ _ _ _ st2) as [st2'|e2]; simpl in Hy; try easy.
  rewrite !bind_Ok_l. now apply IH.
Qed.

Lemma same_result_observe (r1 : result (@population G1)) (r2 : result (@population G2)) :
  same_result r1 r2 -> observe r1 = observe r2.
Proof.
  destruct r1 as [st1|e1], r2 as [st2|e2]; simpl; try easy.
  - intros (_ & Hp & Hs). unfold observe. cbn. now rewrite Hp, Hs.
  - now intros ->.
Qed.

Lemma state_after_same (g1 : G1) (g2 : G2) (k : nat) :
  R g1 g2 ->
  same_result (state_after draw1 g1 n_sims plan scen k)
              (state_after draw2 g2 n_sims plan scen k).
Proof.
  intros H. unfold state_after.
  destruct (prepare plan) as [s|e]; [|reflexivity]. rewrite !bind_Ok_l.
  apply run_years_same. now repeat split.
Qed.

Lemma simulate_same (g1 : G1) (g2 : G2) :
  R g1 g2 ->
  same_result (simulate draw1 g1 n_sims plan scen) (simulate draw2 g2 n_sims plan scen).
Proof.
  intros H. unfold simulate.
  destruct (prepare plan) as [s|e]; [|reflexivity]. rewrite !bind_Ok_l.
  apply run_years_same. now repeat split.
Qed.

End Replay.

Lemma run_sim_same {G1 G2 : Type}
    (draw1 : G1 -> Qc -> Qc -> Qc * G1) (draw2 : G2 -> Qc -> Qc -> Qc * G2)
    (R : G1 -> G2 -> Prop) (g1 : G1) (g2 : G2)
    (n_sims : nat) (plan : value) (scen : Scenario) :
  same_result R (simulate draw1 g1 n_sims plan scen) (simulate draw2 g2 n_sims plan scen) ->
  run_sim draw1 g1 n_sims plan scen = run_sim draw2 g2 n_sims plan scen.
Proof.
  unfold run_sim.
  destruct (simulate draw1 _ _ _ _) as [st1|e1], (simulate draw2 _ _ _ _) as [st2|e2];
    simpl; try easy.
  - intros (_ & -> & _). reflexivity.
  - now intros ->.
Qed.

(** A generator that answers the same fixed value at every call: two runs on
    it, from whatever generator states, show the same populations year after
    year and return the same outputs. *)
Lemma fixed_value_replay {G : Type} (draw : G -> Qc -> Qc -> Qc * G) (c : Qc)
    (g1 g2 : G) (n_sims : nat) (plan : value) (scen : Scenario) :
  (forall g, (draw g (avg_return scen) (vol scen)).1 = c) ->
  (forall k, observe (state_after draw g1 n_sims plan scen k)
             = observe (state_after draw g2 n_sims plan scen k)) /\
  run_sim draw g1 n_sims plan scen = run_sim draw g2 n_sims plan scen.
Proof.
  intros Hc.
  assert (HR : forall a b : G, True ->
    (draw a (avg_return scen) (vol scen)).1 = (draw b (avg_return scen) (vol scen)).1 /\ True).
  { intros a b _. now rewrite !Hc. }
  split.
  - intros k. apply (same_result_observe (fun _ _ => True)).
    now apply state_after_same.
  - apply (run_sim_same draw draw (fun _ _ => True)). now apply simulate_same.
Qed.

(** C9. A run is a function of the plan, the scenario, the number of trials
    and the sequence of draws: two runs on the same inputs whose generators
    answer the same sequence of draws (in particular two generators that
    answer one fixed value at every call) show the same balances and skip
    counts for every trial after every year, and return the same outputs (or
    raise the same exception). *)
Theorem deterministic_replay {G1 G2 : Type}
    (draw1 : G1 -> Qc -> Qc -> Qc * G1) (draw2 : G2 -> Qc -> Qc -> Qc * G2)
    (R : G1 -> G2 -> Prop) (g1 : G1) (g2 : G2)
    (n_sims : nat) (plan : value) (scen : Scenario) :
  R g1 g2 ->
  (forall a b, R a b ->
     (draw1 a (avg_return scen) (vol scen)).1 = (draw2 b (avg_return scen) (vol scen)).1 /\
     R (draw1 a (avg_return scen) (vol scen)).2 (draw2 b (avg_return scen) (vol scen)).2) ->
  (forall k, observe (state_after draw1 g1 n_sims plan scen k)
             = observe (state_after draw2 g2 n_sims plan scen k)) /\
  run_sim draw1 g1 n_sims plan scen = run_sim draw2 g2 n_sims plan scen.
Proof.
  intros Hg HR. split.
  - intros k. apply (same_result_observe R). now apply state_after_same.
  - apply (run_sim_same draw1 draw2 R). now apply simulate_same.
Qed.

(** ** Plans with a field missing *)

(** [plan[k1][k2]...] along a path of keys. *)
Fixpoint lookup_path (v : value) (path : list string) : result value :=
  match path with
  | [] => Ok v
  | k :: rest => v' ← getitem v k; lookup_path v' rest
  end.

(** The fields [run_sim] reads before the loop, in reading order (lines
    28-35).  The others (monthly deposit, annual spend, social security,
    annual dividends) are read inside the loop, in the years of their phase. *)
Definition fields_read_first : list (list string) :=
  [ ["CURRENT AGE"];
    ["RETIREMENT"; "RETIREMENT AGE"];
    ["RETIREMENT"; "DEATH AGE"];
    ["PORTFOLIO"; "CURRENT"];
    ["RETIREMENT"; "EMERGENCY SAVINGS"] ]%string.

Lemma lookup_path_1 (v : value) (k : string) : lookup_path v [k] = getitem v k.
Proof. simpl. now destruct (getitem v k). Qed.

Lemma lookup_path_2 (v : value) (k1 k2 : string) :
  lookup_path v [k1; k2] = getitem2 v k1 k2.
Proof.
  unfold getitem2. simpl. destruct (getitem v k1) as [v'|e]; [|reflexivity].
  rewrite !bind_Ok_l. now destruct (getitem v' k2).
Qed.

Lemma num_of_Raise (v : value) (e : exn) : num_of v = Raise e -> e = TypeError.
Proof. destruct v; simpl; congruence. Qed.

Lemma int_of_Raise (v : value) (e : exn) : int_of v = Raise e -> e = TypeError.
Proof. destruct v; simpl; congruence. Qed.

(** The exception a failing lookup raises: a type error (indexing a number),
    or a key error naming the key that is missing. *)
Lemma lookup_path_Raise (v : value) (path : list string) (e : exn) :
  lookup_path v path = Raise e ->
  e = TypeError \/ exists k, k ∈ path /\ e = KeyError k.
Proof.
  revert v. induction path as [|k rest IH]; intros v; simpl; [discriminate|].
  destruct v as [z|q|m]; simpl; try (intros [= <-]; now left).
  destruct (m !! k) as [v'|]; simpl.
  - intros H. destruct (IH _ H) as [->|(k' & Hk' & ->)]; [now left|].
    right. exists k'. split; [now right|reflexivity].
  - intros [= <-]. right. exists k. split; [now left|reflexivity].
Qed.

(** The exception [prepare] raises is a type error, or the key error of a
    failing lookup of one of the fields read before the loop. *)
Lemma prepare_Raise (plan : value) (e : exn) :
  prepare plan = Raise e ->
  e = TypeError \/
  exists path k, path ∈ fields_read_first /\
    lookup_path plan path = Raise (KeyError k) /\ e = KeyError k.
Proof.
  unfold prepare, fields_read_first.
  assert (Hres : forall path e', lookup_path plan path = Raise e' ->
            path ∈ fields_read_first ->
            e' = TypeError \/ exists path k, path ∈ fields_read_first /\
              lookup_path plan path = Raise (KeyError k) /\ e' = KeyError k).
  { intros path e' H Hin. destruct (lookup_path_Raise _ _ _ H) as [->|(k & _ & ->)].
    - now left.
    - right. now exists path, k. }
  rewrite <- lookup_path_1, <- !lookup_path_2.
  destruct (lookup_path plan ["CURRENT AGE"%string]) as [curr|e1] eqn:H1.
  2:{ intros [= <-]. apply (Hres _ _ H1). repeat constructor. }
  destruct (lookup_path plan ["RETIREMENT"; "RETIREMENT AGE"]%string) as [ret|e2] eqn:H2.
  2:{ intros [= <-]. apply (Hres _ _ H2). repeat constructor. }
  destruct (lookup_path plan ["RETIREMENT"; "DEATH AGE"]%string) as [death|e3] eqn:H3.
  2:{ intros [= <-]. apply (Hres _ _ H3). repeat constructor. }
  rewrite !bind_Ok_l.
  destruct (num_of death) as [d|e4] eqn:H4.
  2:{ intros [= <-]. left. eapply num_of_Raise, H4. }
  destruct (num_of curr) as [c|e5] eqn:H5.
  2:{ intros [= <-]. left. eapply num_of_Raise, H5. }
  rewrite !bind_Ok_l.
  destruct (lookup_path plan ["PORTFOLIO"; "CURRENT"]%string) as [pcv|e6] eqn:H6.
  2:{ intros [= <-]. apply (Hres _ _ H6). repeat constructor. }
  rewrite !bind_Ok_l.
  destruct (num_of pcv) as [pc|e7] eqn:H7.
  2:{ intros [= <-]. left. eapply num_of_Raise, H7. }
  rewrite !bind_Ok_l.
  destruct (lookup_path plan ["RETIREMENT"; "EMERGENCY SAVINGS"]%string) as [esv|e8] eqn:H8.
  2:{ intros [= <-]. apply (Hres _ _ H8). repeat constructor. }
  rewrite !bind_Ok_l.
  destruct (int_of esv) as [es|e9] eqn:H9.
  2:{ intros [= <-]. left. eapply int_of_Raise, H9. }
  discriminate.
Qed.

(** [prepare] succeeds only when every field read before the loop is there. *)
Lemma prepare_Ok_fields (plan : value) (s : setup) (path : list string) :
  prepare plan = Ok s -> path ∈ fields_read_first ->
  exists v, lookup_path plan path = Ok v.
Proof.
  intros H Hin.
  destruct (prepare_Ok plan s H) as (c & d & pc & es & Hc & Hr & Hd & Hp & He & _).
  apply bind_Ok in Hc as (vc & Hc & _). apply bind_Ok in Hd as (vd & Hd & _).
  apply bind_Ok in Hp as (vp & Hp & _). apply bind_Ok in He as (ve & He & _).
  rewrite <- lookup_path_1 in Hc. rewrite <- lookup_path_2 in Hr, Hd, Hp, He.
  unfold fields_read_first in Hin.
  repeat (apply elem_of_cons in Hin as [->|Hin]; [eauto|]).
  now apply elem_of_nil in Hin.
Qed.

(** The three ages, lines 28-30: looked up before any arithmetic or
    conversion, in this order. *)
Definition ages_read_first : list (list string) :=
  [ ["CURRENT AGE"];
    ["RETIREMENT"; "RETIREMENT AGE"];
    ["RETIREMENT"; "DEATH AGE"] ]%string.

(** When one of the three ages is missing, [prepare] ends at the first of
    them, in reading order, that cannot be looked up, with the [KeyError] of
    its missing key. *)
Lemma prepare_first_missing (plan : value) (path : list string) (k : string) :
  path ∈ ages_read_first ->
  lookup_path plan path = Raise (KeyError k) ->
  exists before path' after k',
    ages_read_first = before ++ path' :: after /\
    (forall p, p ∈ before -> exists v, lookup_path plan p = Ok v) /\
    lookup_path plan path' = Raise (KeyError k') /\
    prepare plan = Raise (KeyError k').
Proof.
  intros Hin Hk. unfold prepare. rewrite <- lookup_path_1, <- !lookup_path_2.
  assert (Hdict : exists m, plan = VDict m).
  { destruct plan as [z|q|m]; [exfalso..|now exists m];
      unfold ages_read_first in Hin;
      repeat (apply elem_of_cons in Hin as [->|Hin]; [discriminate|]);
      now apply elem_of_nil in Hin. }
  destruct Hdict as [m ->].
  destruct (lookup_path (VDict m) ["CURRENT AGE"%string]) as [curr|e1] eqn:H1.
  2:{ exists [], ["CURRENT AGE"%string], (tail ages_read_first).
      assert (exists k', e1 = KeyError k') as [k' ->].
      { cbn in H1. destruct (m !! "CURRENT AGE"%string); [discriminate|].
        injection H1 as <-. eauto. }
      exists k'. split; [reflexivity|]. split; [intros p Hp; now apply elem_of_nil in Hp|].
      now split. }
  rewrite bind_Ok_l.
  destruct (lookup_path (VDict m) ["RETIREMENT"; "RETIREMENT AGE"]%string)
    as [ret|e2] eqn:H2.
  2:{ assert (exists k', e2 = KeyError k') as [k' ->].
      { unfold ages_read_first in Hin.
        cbn in H2, Hk. destruct (m !! "RETIREMENT"%string) as [[z|q|mr]|] eqn:Hr.
        - exfalso. repeat (apply elem_of_cons in Hin as [->|Hin];
            [cbn in Hk; rewrite ?Hr, ?H1 in Hk; try discriminate|]).
          + cbn in H1. destruct (m !! "CURRENT AGE"%string); discriminate.
          + now apply elem_of_nil in Hin.
        - exfalso. repeat (apply elem_of_cons in Hin as [->|Hin];
            [cbn in Hk; rewrite ?Hr, ?H1 in Hk; try discriminate|]).
          + cbn in H1. destruct (m !! "CURRENT AGE"%string); discriminate.
          + now apply elem_of_nil in Hin.
        - cbn in H2. destruct (mr !! "RETIREMENT AGE"%string); [discriminate|].
          injection H2 as <-. eauto.
        - injection H2 as <-. eauto. }
      exists [["CURRENT AGE"%string]], ["RETIREMENT"; "RETIREMENT AGE"]%string,
        [["RETIREMENT"; "DEATH AGE"]%string], k'.
      split; [reflexivity|]. split; [|now split].
      intros p [->|Hp]%elem_of_cons; [eauto|now apply elem_of_nil in Hp]. }
  rewrite bind_Ok_l.
  destruct (lookup_path (VDict m) ["RETIREMENT"; "DEATH AGE"]%string)
    as [death|e3] eqn:H3.
  - exfalso. unfold ages_read_first in Hin.
    repeat (apply elem_of_cons in Hin as [->|Hin]; [congruence|]).
    now apply elem_of_nil in Hin.
  - assert (exists k', e3 = KeyError k') as [k' ->].
    { cbn in H2, H3. destruct (m !! "RETIREMENT"%string) as [[z|q|mr]|];
        try discriminate.
      cbn in H3. destruct (mr !! "DEATH AGE"%string); [discriminate|].
      injection H3 as <-. eauto. }
    exists [["CURRENT AGE"%string]; ["RETIREMENT"; "RETIREMENT AGE"]%string],
      ["RETIREMENT"; "DEATH AGE"]%string, [], k'.
    split; [reflexivity|]. split; [|now split].
    intros p Hp. repeat (apply elem_of_cons in Hp as [->|Hp]; [eauto|]).
    now apply elem_of_nil in Hp.
Qed.

(** C3, as the program has it.  When a field that [run_sim] reads before
    the loop is missing from the plan, the run fails before the loop: the
    exception of lines 28-35 ends [run_sim] from any generator state, for any
    number of trials and any scenario, and no year is entered.  When the
    missing field is one of the three ages, which are looked up before any
    arithmetic or conversion, that exception is the [KeyError] of the first
    of them, in reading order, that cannot be looked up. *)
Theorem missing_field_raises (plan : value) (path : list string) (k : string) :
  path ∈ fields_read_first ->
  lookup_path plan path = Raise (KeyError k) ->
  exists e,
    prepare plan = Raise e /\
    (forall (G : Type) (draw : G -> Qc -> Qc -> Qc * G) (g : G)
            (n_sims : nat) (scen : Scenario),
       state_after draw g n_sims plan scen 0 = Raise e /\
       run_sim draw g n_sims plan scen = Raise e) /\
    (path ∈ ages_read_first ->
     exists before path' after k',
       ages_read_first = before ++ path' :: after /\
       (forall p, p ∈ before -> exists v, lookup_path plan p = Ok v) /\
       lookup_path plan path' = Raise (KeyError k') /\
       e = KeyError k').
Proof.
  intros Hin Hk. destruct (prepare plan) as [s|e] eqn:Hp.
  - destruct (prepare_Ok_fields plan s path Hp Hin) as [v Hv]. congruence.
  - exists e. split; [reflexivity|]. split.
    + intros G draw g n_sims scen. unfold run_sim, simulate, state_after.
      now rewrite Hp.
    + intros Hage.
      destruct (prepare_first_missing plan path k Hage Hk)
        as (before & path' & after & k' & Hsplit & Hbefore & Hmiss & Hp').
      exists before, path', after, k'. repeat split; try assumption. congruence.
Qed.

(** * Worked runs *)

(** A generator for deterministic runs: a tape of standard-normal values.  A
    draw takes the next value [z] off the tape and answers [loc + scale * z];
    an empty tape answers [loc]. *)
Definition tape_draw (tape : list Qc) (loc scale : Qc) : Qc * list Qc :=
  match tape with
  | z :: tape' => (loc + scale * z, tape')
  | [] => (loc, [])
  end.

(** A plan document with every field, all integers. *)
Definition plan_of (current_age retirement_age death_age : Z)
    (current monthly_deposit annual_dividends : Z)
    (emergency_savings annual_spend social_security : Z) : value :=
  VDict (<[ "CURRENT AGE" := VInt current_age ]> (
         <[ "PORTFOLIO" := VDict (<[ "CURRENT" := VInt current ]> (
                                  <[ "MONTHLY DEPOSIT" := VInt monthly_deposit ]> (
                                  <[ "ANNUAL DIVIDENDS" := VInt annual_dividends ]> ∅))) ]> (
         <[ "RETIREMENT" := VDict (<[ "RETIREMENT AGE" := VInt retirement_age ]> (
                                   <[ "DEATH AGE" := VInt death_age ]> (
                                   <[ "EMERGENCY SAVINGS" := VInt emergency_savings ]> (
                                   <[ "ANNUAL SPEND" := VInt annual_spend ]> (
                                   <[ "SOCIAL SECURITY" := VInt social_security ]> ∅))))) ]>
         ∅)))%string.

(** [plan] without the field [section][key]. *)
Definition without (plan : value) (section key : string) : value :=
  match plan with
  | VDict m =>
      match m !! section with
      | Some (VDict fields) => VDict (<[ section := VDict (delete key fields) ]> m)
      | _ => plan
      end
  | _ => plan
  end.

(** A scenario with no volatility, no raise and no inflation. *)
Definition flat_scenario (r : Qc) : Scenario :=
  {| name := "Flat"; avg_return := r; vol := 0; raise_rate := 0; inflation := 0 |}.

(** Aged 65, retiring at 66, simulated to 68: one accumulation year, then two
    retirement years; a 10% loss every year. *)
Definition demo_plan : value := plan_of 65 66 68 100000 1000 0 2 40000 0.
Definition demo_down : Scenario := flat_scenario (Q2Qc (-1 # 10)).
Definition demo_setup : setup :=
  {| curr_age := Num.of_Z 65; ret_age := VInt 66;
     years := Num.of_Z 68 - Num.of_Z 65;
     portfolio_current := Num.of_Z 100000; emergency_savings := 2 |}.

(** Two trials entering the first retirement year, one with two skips left,
    one with none. *)
Definition demo_population : @population (list Qc) :=
  {| rng := []; portfolios := [Num.of_Z 102000; Num.of_Z 102000]; skips := [2; 0]%Z |}.

Example demo_prepare : prepare demo_plan = Ok demo_setup.
Proof. reflexivity. Qed.

Lemma skip_policy_withdrawal_witness :
  exists st',
    num_of (ret_age demo_setup) = Ok (Num.of_Z 66) /\
    Num.of_Z 66 < age_at demo_setup 2 /\
    year_step tape_draw 2 demo_plan demo_down demo_setup 2 demo_population = Ok st' /\
    exists mr st1 st2 nw,
      market_step tape_draw 2 demo_down demo_population = Ok (mr, st1) /\
      cash_flow_step demo_plan demo_down demo_setup 2 mr st1 = Ok st2 /\
      st' = clamp_step st2 /\
      net_withdrawal demo_plan demo_down 2 = Ok nw /\
      forall (i : nat) (r b : Qc) (k : Z),
        mr !! i = Some r -> portfolios st1 !! i = Some b -> skips st1 !! i = Some k ->
        (0 < r \/ (k <= 0)%Z -> portfolios st2 !! i = Some (b - nw)) /\
        (r <= 0 /\ (0 < k)%Z -> portfolios st2 !! i = Some b) /\
        (nw <> 0 -> (portfolios st2 !! i = Some (b - nw) <-> 0 < r \/ (k <= 0)%Z)).
Proof.
  eexists. split; [reflexivity|]. split; [reflexivity|]. split; [reflexivity|].
  apply (skip_policy_withdrawal tape_draw 2 demo_plan demo_down demo_setup 2
           demo_population _ (Num.of_Z 66)); reflexivity.
Defined.

Lemma skip_budget_decrement_witness :
  exists st',
    num_of (ret_age demo_setup) = Ok (Num.of_Z 66) /\
    Num.of_Z 66 < age_at demo_setup 2 /\
    year_step tape_draw 2 demo_plan demo_down demo_setup 2 demo_population = Ok st' /\
    exists mr st1 st2,
      market_step tape_draw 2 demo_down demo_population = Ok (mr, st1) /\
      cash_flow_step demo_plan demo_down demo_setup 2 mr st1 = Ok st2 /\
      st' = clamp_step st2 /\
      forall (i : nat) (r b : Qc) (k : Z),
        mr !! i = Some r -> portfolios st1 !! i = Some b -> skips st1 !! i = Some k ->
        r <= 0 /\ (0 < k)%Z ->
        (0 < b -> skips st' !! i = Some (k - 1)%Z) /\
        (b <= 0 -> skips st' !! i = Some k) /\
        (skips st' !! i = Some (k - 1)%Z <-> 0 < b).
Proof.
  eexists. split; [reflexivity|]. split; [reflexivity|]. split; [reflexivity|].
  apply (skip_budget_decrement tape_draw 2 demo_plan demo_down demo_setup 2
           demo_population _ (Num.of_Z 66)); reflexivity.
Defined.

(** Equalities between computed results: constructors peeled off, exact
    numbers compared by value. *)
Ltac qc_eq :=
  lazymatch goal with
  | |- @eq Qc _ _ => apply Qc_is_canon; vm_compute; reflexivity
  | |- _ => first [ reflexivity | f_equal; qc_eq ]
  end.
Ltac run_eq := vm_compute; qc_eq.

(** The demo plan with the ages out of order: death age 68, current age 70. *)
Definition late_plan : value := plan_of 70 66 68 100000 1000 0 2 40000 0.

(** C3 fails as stated.  A plan whose death age is below its current age is
    not rejected: the run returns a success rate and a median.  And a plan
    without its annual spend is not rejected before the loop: the first year
    runs, and the second raises the [KeyError]. *)
Lemma unordered_ages_accepted :
  run_sim tape_draw [] 3 late_plan demo_down
    = Ok (Some (Num.of_Z 100), Some (Num.of_Z 100000)) /\
  observe (state_after tape_draw [] 1 (without demo_plan "RETIREMENT" "ANNUAL SPEND")
             demo_down 1)
    = Ok ([Num.of_Z 102000], [2%Z]) /\
  run_sim tape_draw [] 1 (without demo_plan "RETIREMENT" "ANNUAL SPEND") demo_down
    = Raise (KeyError "ANNUAL SPEND").
Proof. split; [run_eq|]. split; [run_eq|]. reflexivity. Qed.

Lemma missing_field_raises_witness :
  ["RETIREMENT"; "DEATH AGE"]%string ∈ fields_read_first /\
  lookup_path (without demo_plan "RETIREMENT" "DEATH AGE")
    ["RETIREMENT"; "DEATH AGE"]%string = Raise (KeyError "DEATH AGE") /\
  exists e,
    prepare (without demo_plan "RETIREMENT" "DEATH AGE") = Raise e /\
    (forall (G : Type) (draw : G -> Qc -> Qc -> Qc * G) (g : G)
            (n_sims : nat) (scen : Scenario),
       state_after draw g n_sims (without demo_plan "RETIREMENT" "DEATH AGE") scen 0
         = Raise e /\
       run_sim draw g n_sims (without demo_plan "RETIREMENT" "DEATH AGE") scen
         = Raise e) /\
    (["RETIREMENT"; "DEATH AGE"]%string ∈ ages_read_first ->
     exists before path' after k',
       ages_read_first = before ++ path' :: after /\
       (forall p, p ∈ before ->
          exists v, lookup_path (without demo_plan "RETIREMENT" "DEATH AGE") p = Ok v) /\
       lookup_path (without demo_plan "RETIREMENT" "DEATH AGE") path'
         = Raise (KeyError k') /\
       e = KeyError k').
Proof.
  split; [repeat constructor|]. split; [reflexivity|].
  apply (missing_field_raises (without demo_plan "RETIREMENT" "DEATH AGE")
           ["RETIREMENT"; "DEATH AGE"]%string "DEATH AGE").
  - repeat constructor.
  - reflexivity.
Defined.

(** Spending far above the balance: the floor is what keeps year 2 at zero. *)
Definition spender_plan : value := plan_of 65 66 68 100000 1000 0 0 200000 0.

Lemma floor_every_year_witness :
  exists st',
    state_after tape_draw [] 2 spender_plan demo_down 2 = Ok st' /\
    (forall b, b ∈ portfolios st' -> 0 <= b) /\
    (exists s st mr st1 st2,
       prepare spender_plan = Ok s /\
       state_after tape_draw [] 2 spender_plan demo_down 1 = Ok st /\
       market_step tape_draw 2 demo_down st = Ok (mr, st1) /\
       cash_flow_step spender_plan demo_down s 2 mr st1 = Ok st2 /\
       portfolios st' = (fun p => Num.max p 0) <$> portfolios st2) /\
    (forall st'', state_after tape_draw [] 2 spender_plan demo_down 3 = Ok st'' ->
       exists mr st1, market_step tape_draw 2 demo_down st' = Ok (mr, st1)).
Proof.
  eexists. split; [reflexivity|].
  apply (floor_every_year tape_draw [] 2 spender_plan demo_down 1). reflexivity.
Defined.

Lemma skip_count_monotone_witness :
  exists st st',
    prepare demo_plan = Ok demo_setup /\
    state_after tape_draw [] 2 demo_plan demo_down 1 = Ok st /\
    state_after tape_draw [] 2 demo_plan demo_down 2 = Ok st' /\
    skips st !! 0%nat = Some 2%Z /\
    skips (initial ([] : list Qc) 2 demo_setup) !! 0%nat = Some (emergency_savings demo_setup) /\
    exists a', skips st' !! 0%nat = Some a' /\
      (a' <= 2)%Z /\
      (a' = 2 \/ (a' = 2 - 1 /\ 0 < 2))%Z /\
      (0 <= 2 -> 0 <= a')%Z /\
      (2 <= emergency_savings demo_setup)%Z /\
      (0 <= emergency_savings demo_setup -> 0 <= a')%Z.
Proof.
  eexists. eexists. split; [reflexivity|]. split; [reflexivity|].
  split; [reflexivity|]. split; [reflexivity|].
  eapply (skip_count_monotone tape_draw [] 2 demo_plan demo_down demo_setup 1 _ _ 0%nat 2%Z);
    reflexivity.
Defined.

(** A scenario with volatility, run on a tape of four draws. *)
Definition expected : Scenario :=
  {| name := "Expected"; avg_return := Q2Qc (1 # 10); vol := Q2Qc (15 # 100);
     raise_rate := Q2Qc (3 # 100); inflation := Q2Qc (2 # 100) |}.
Definition demo_tape : list Qc := [Q2Qc 1; Q2Qc (-2); Q2Qc (1 # 2); 0; Q2Qc (-8); Q2Qc 3].

Lemma outputs_reduction_witness :
  exists rate med,
    (1 <= 2)%nat /\
    run_sim tape_draw demo_tape 2 demo_plan expected = Ok (rate, med) /\
    exists (st : @population (list Qc)) (r m : Qc),
      simulate tape_draw demo_tape 2 demo_plan expected = Ok st /\
      length (portfolios st) = 2%nat /\
      rate = Some r /\ med = Some m /\
      0 <= r /\ r <= Num.of_Z 100 /\
      (r = 0 <-> Stats.count_pos (portfolios st) = O) /\
      (r = Num.of_Z 100 <-> Stats.count_pos (portfolios st) = 2%nat) /\
      is_median (portfolios st) m.
Proof.
  eexists. eexists. split; [lia|]. split; [reflexivity|].
  apply (outputs_reduction tape_draw demo_tape 2 demo_plan expected); [lia|reflexivity].
Defined.

(** The end-to-end scenario of the specification: one trial aged 64,
    retiring at 65, every return 0.0, a monthly deposit of 1000, no raise. *)
Definition saver_plan : value := plan_of 64 65 66 5000 1000 0 0 40000 0.
Definition saver_setup : setup :=
  {| curr_age := Num.of_Z 64; ret_age := VInt 65;
     years := Num.of_Z 66 - Num.of_Z 64;
     portfolio_current := Num.of_Z 5000; emergency_savings := 0 |}.

Lemma accumulation_contribution_witness :
  exists st st',
    prepare saver_plan = Ok saver_setup /\
    num_of (ret_age saver_setup) = Ok (Num.of_Z 65) /\
    age_at saver_setup 1 <= Num.of_Z 65 /\
    state_after tape_draw [] 1 saver_plan (flat_scenario 0) 0 = Ok st /\
    state_after tape_draw [] 1 saver_plan (flat_scenario 0) 1 = Ok st' /\
    exists mr st1 st2 md,
      market_step tape_draw 1 (flat_scenario 0) st = Ok (mr, st1) /\
      cash_flow_step saver_plan (flat_scenario 0) saver_setup 1 mr st1 = Ok st2 /\
      st' = clamp_step st2 /\
      getitem2 saver_plan "PORTFOLIO" "MONTHLY DEPOSIT" ≫= num_of = Ok md /\
      (forall i b, portfolios st1 !! i = Some b ->
         portfolios st2 !! i
         = Some (b + md * Num.of_Z 12 * (1 + raise_rate (flat_scenario 0)) ^ 1)) /\
      (md = Num.of_Z 1000 -> raise_rate (flat_scenario 0) = 0 ->
       (forall r, r ∈ mr -> r = 0) ->
       forall i b, portfolios st !! i = Some b ->
         portfolios st2 !! i = Some (b + Num.of_Z 12000) /\
         (0 <= b -> portfolios st' !! i = Some (b + Num.of_Z 12000))).
Proof.
  eexists. eexists. split; [reflexivity|]. split; [reflexivity|].
  split; [now apply NumFacts.leb_le|]. split; [reflexivity|]. split; [reflexivity|].
  eapply (accumulation_contribution tape_draw [] 1 saver_plan (flat_scenario 0)
            saver_setup (Num.of_Z 65) 0);
    first [reflexivity | now apply NumFacts.leb_le].
Defined.

Lemma no_years_run_witness :
  getitem late_plan "CURRENT AGE" ≫= num_of = Ok (Num.of_Z 70) /\
  getitem2 late_plan "RETIREMENT" "RETIREMENT AGE" = Ok (VInt 66) /\
  getitem2 late_plan "RETIREMENT" "DEATH AGE" ≫= num_of = Ok (Num.of_Z 68) /\
  getitem2 late_plan "PORTFOLIO" "CURRENT" ≫= num_of = Ok (Num.of_Z 100000) /\
  getitem2 late_plan "RETIREMENT" "EMERGENCY SAVINGS" ≫= int_of = Ok 2%Z /\
  Num.of_Z 68 <= Num.of_Z 70 /\ (1 <= 3)%nat /\
  exists s rate,
    prepare late_plan = Ok s /\
    Num.arange_len (years s) = O /\
    simulate tape_draw demo_tape 3 late_plan expected = Ok (initial demo_tape 3 s) /\
    run_sim tape_draw demo_tape 3 late_plan expected
      = Ok (Some rate, Some (Num.of_Z 100000)) /\
    (0 < Num.of_Z 100000 -> rate = Num.of_Z 100) /\
    (Num.of_Z 100000 <= 0 -> rate = 0).
Proof.
  do 5 (split; [reflexivity|]).
  split; [now apply NumFacts.leb_le|]. split; [lia|].
  apply (no_years_run tape_draw demo_tape 3 late_plan expected
           (Num.of_Z 70) (Num.of_Z 68) (Num.of_Z 100000) (VInt 66) 2%Z);
    first [reflexivity | lia | now apply NumFacts.leb_le].
Defined.

(** Two runs of the flat scenario from different tapes: with no volatility
    every draw is the average return, whatever the tape holds. *)
Lemma deterministic_replay_witness :
  (forall a b : list Qc, True ->
     (tape_draw a (avg_return demo_down) (vol demo_down)).1
     = (tape_draw b (avg_return demo_down) (vol demo_down)).1 /\ True) /\
  (forall k, observe (state_after tape_draw demo_tape 2 demo_plan demo_down k)
             = observe (state_after tape_draw [] 2 demo_plan demo_down k)) /\
  run_sim tape_draw demo_tape 2 demo_plan demo_down
  = run_sim tape_draw [] 2 demo_plan demo_down.
Proof.
  assert (H : forall a b : list Qc, True ->
     (tape_draw a (avg_return demo_down) (vol demo_down)).1
     = (tape_draw b (avg_return demo_down) (vol demo_down)).1 /\ True).
  { intros a b _. split; [|exact I].
    assert (Hd : forall t : list Qc,
      (tape_draw t (avg_return demo_down) (vol demo_down)).1 = avg_return demo_down).
    { intros [|z t]; simpl; [reflexivity|]. ring. }
    now rewrite !Hd. }
  split; [exact H|].
  exact (deterministic_replay tape_draw tape_draw (fun _ _ => True) demo_tape []
           2 demo_plan demo_down I H).
Defined.

Lemma reduction_permutation_witness :
  [Num.of_Z 3; Num.of_Z 1; Num.of_Z 2] ≡ₚ [Num.of_Z 1; Num.of_Z 2; Num.of_Z 3] /\
  Stats.success_rate [Num.of_Z 3; Num.of_Z 1; Num.of_Z 2] 3
  = Stats.success_rate [Num.of_Z 1; Num.of_Z 2; Num.of_Z 3] 3 /\
  Stats.median [Num.of_Z 3; Num.of_Z 1; Num.of_Z 2]
  = Stats.median [Num.of_Z 1; Num.of_Z 2; Num.of_Z 3].
Proof.
  assert (H : [Num.of_Z 3; Num.of_Z 1; Num.of_Z 2]
              ≡ₚ [Num.of_Z 1; Num.of_Z 2; Num.of_Z 3]).
  { eapply perm_trans; [apply perm_swap|]. apply perm_skip, perm_swap. }
  split; [exact H|]. exact (reduction_permutation _ _ 3 H).
Defined.

(** ** The end-to-end scenarios of the specification, evaluated *)

(** One accumulation year at return 0.0: 5000 becomes 5000 + 12000. *)
Example saver_first_year :
  observe (state_after tape_draw [] 1 saver_plan (flat_scenario 0) 1)
  = Ok ([Num.of_Z 17000], [0%Z]).
Proof. run_eq. Qed.

(** Two skips, two down retirement years: 102000 shrinks by the market alone
    (91800, then 82620), and the skip count goes 2, 1, 0. *)
Example two_down_years_skipped :
  observe (state_after tape_draw [] 1 demo_plan demo_down 1) = Ok ([Num.of_Z 102000], [2%Z]) /\
  observe (state_after tape_draw [] 1 demo_plan demo_down 2) = Ok ([Num.of_Z 91800], [1%Z]) /\
  observe (state_after tape_draw [] 1 demo_plan demo_down 3) = Ok ([Num.of_Z 82620], [0%Z]).
Proof. split; [run_eq|]. split; run_eq. Qed.

(** No skip left: a down year withdraws all the same. *)
Example no_skip_left_withdraws :
  observe (state_after tape_draw [] 1 (plan_of 65 66 68 100000 1000 0 0 40000 0) demo_down 2)
  = Ok ([Num.of_Z 51800], [0%Z]).
Proof. run_eq. Qed.

(** A depleted trial does not spend its skips: the balance is at the floor
    after year 2, and the skip count of year 3 stays at 2. *)
Example depleted_keeps_skips :
  observe (state_after tape_draw [] 1 (plan_of 65 66 68 0 0 0 2 40000 0)
             (flat_scenario (Q2Qc (-1 # 1))) 3)
  = Ok ([0], [2%Z]).
Proof. run_eq. Qed.

(** Returns drawn off a tape, two trials: the first ends below zero in a
    down year and is floored (its skips untouched), the second ends at
    50520.68; half the trials succeed and the median is the mean of the two. *)
Example taped_run :
  observe (state_after tape_draw demo_tape 2 demo_plan expected 3)
  = Ok ([0; Q2Qc (1263017 # 25)], [2%Z; 2%Z]) /\
  run_sim tape_draw demo_tape 2 demo_plan expected
  = Ok (Some (Num.of_Z 50), Some (Q2Qc (1263017 # 50))).
Proof. split; run_eq. Qed.

(** No trial at all: both outputs are NaN. *)
Example empty_population :
  run_sim tape_draw [] 0 demo_plan demo_down = Ok (None, None).
Proof. reflexivity. Qed.

(** * Further properties of the engine *)

(** ** Plans the engine accepts *)

(** The plan holds a number at [plan[section][key]]. *)
Definition has_number (plan : value) (section key : string) : Prop :=
  exists q, getitem2 plan section key ≫= num_of = Ok q.

(** All nine fields [run_sim] may read are there, each a number. *)
Definition complete (plan : value) : Prop :=
  (exists c, getitem plan "CURRENT AGE" ≫= num_of = Ok c) /\
  has_number plan "RETIREMENT" "RETIREMENT AGE" /\
  has_number plan "RETIREMENT" "DEATH AGE" /\
  has_number plan "PORTFOLIO" "CURRENT" /\
  has_number plan "RETIREMENT" "EMERGENCY SAVINGS" /\
  has_number plan "PORTFOLIO" "MONTHLY DEPOSIT" /\
  has_number plan "RETIREMENT" "ANNUAL SPEND" /\
  has_number plan "RETIREMENT" "SOCIAL SECURITY" /\
  has_number plan "PORTFOLIO" "ANNUAL DIVIDENDS".

Lemma has_number_value (plan : value) (section key : string) :
  has_number plan section key ->
  exists v q, getitem2 plan section key = Ok v /\ num_of v = Ok q.
Proof. intros [q H]. apply bind_Ok in H as (v & Hv & Hq). now exists v, q. Qed.

Lemma num_int_of (v : value) (q : Qc) : num_of v = Ok q -> exists z, int_of v = Ok z.
Proof. destruct v; simpl; [eauto|eauto|discriminate]. Qed.

Lemma complete_prepare (plan : value) :
  complete plan ->
  exists s ra, prepare plan = Ok s /\ num_of (ret_age s) = Ok ra.
Proof.
  intros ([c Hc] & Hra & Hd & Hpc & Hes & _).
  apply has_number_value in Hra as (vra & ra & Hvra & Hra).
  destruct Hd as [d Hd]. destruct Hpc as [pc Hpc].
  apply has_number_value in Hes as (ves & qes & Hves & Hes).
  destruct (num_int_of _ _ Hes) as [es Hes'].
  eexists. exists ra. split.
  - apply (prepare_fields plan c d pc vra es); try assumption.
    now rewrite Hves, bind_Ok_l.
  - exact Hra.
Qed.

Lemma complete_contribution (plan : value) (scen : Scenario) (year_idx : nat) :
  complete plan -> exists c, contribution plan scen year_idx = Ok c.
Proof.
  intros (_ & _ & _ & _ & _ & Hmd & _).
  apply has_number_value in Hmd as (v & md & Hv & Hmd).
  unfold contribution. rewrite Hv, bind_Ok_l, Hmd, bind_Ok_l. eauto.
Qed.

Lemma complete_net_withdrawal (plan : value) (scen : Scenario) (year_idx : nat) :
  complete plan -> exists nw, net_withdrawal plan scen year_idx = Ok nw.
Proof.
  intros (_ & _ & _ & _ & _ & _ & Hsp & Hss & Hdv).
  apply has_number_value in Hsp as (v1 & q1 & Hv1 & Hq1).
  apply has_number_value in Hss as (v2 & q2 & Hv2 & Hq2).
  apply has_number_value in Hdv as (v3 & q3 & Hv3 & Hq3).
  unfold net_withdrawal.
  rewrite Hv1, bind_Ok_l, Hq1, bind_Ok_l, Hv2, bind_Ok_l, Hq2, bind_Ok_l,
    Hv3, bind_Ok_l, Hq3, bind_Ok_l. eauto.
Qed.

Section Accepts.

Context {G : Type} (draw : G -> Qc -> Qc -> Qc * G).
Variables (n_sims : nat) (plan : value) (scen : Scenario) (s : setup).
Hypothesis plan_complete : complete plan.
Hypothesis vol_nonneg : 0 <= vol scen.

Lemma year_step_accepts (ra : Qc) (year_idx : nat) (st : @population G) :
  num_of (ret_age s) = Ok ra ->
  exists st', year_step draw n_sims plan scen s year_idx st = Ok st'.
Proof.
  intros Hra. unfold year_step, market_step, random_normal.
  assert (Num.ltb (vol scen) 0 = false) as -> by now apply NumFacts.ltb_ge.
  rewrite bind_Ok_l. destruct (draws draw _ _ _ _) as [mr g']. rewrite bind_Ok_l.
  unfold cash_flow_step. rewrite Hra, bind_Ok_l.
  destruct (complete_contribution plan scen year_idx plan_complete) as [c Hc].
  destruct (complete_net_withdrawal plan scen year_idx plan_complete) as [nw Hnw].
  rewrite Hc, Hnw, !bind_Ok_l. destruct (Num.leb _ ra); rewrite bind_Ok_l; eauto.
Qed.

Lemma run_years_accepts (ra : Qc) (idxs : list nat) (st : @population G) :
  num_of (ret_age s) = Ok ra ->
  exists st', run_years draw n_sims plan scen s idxs st = Ok st'.
Proof.
  intros Hra. revert st. induction idxs as [|y idxs IH]; intros st; simpl; [eauto|].
  destruct (year_step_accepts ra y st Hra) as [st1 ->]. rewrite bind_Ok_l. apply IH.
Qed.

End Accepts.

Lemma complete_run_sim {G : Type} (draw : G -> Qc -> Qc -> Qc * G) (g : G)
    (n_sims : nat) (plan : value) (scen : Scenario) :
  complete plan -> 0 <= vol scen ->
  exists rate med, run_sim draw g n_sims plan scen = Ok (rate, med).
Proof.
  intros Hplan Hvol. destruct (complete_prepare plan Hplan) as (s & ra & Hs & Hra).
  unfold run_sim, simulate. rewrite Hs, bind_Ok_l.
  destruct (run_years_accepts draw n_sims plan scen s Hplan Hvol ra
              (seq 1 (Num.arange_len (years s))) (initial g n_sims s) Hra) as [st ->].
  rewrite bind_Ok_l. eauto.
Qed.

(** X1. A plan with all nine fields, each a number, and a scenario with a
    volatility that is not negative are accepted: whatever the generator and
    the number of trials, every year of the run is reached and [run_sim]
    returns its two outputs, no exception. *)
Theorem run_sim_accepts {G : Type} (draw : G -> Qc -> Qc -> Qc * G) (g : G)
    (n_sims : nat) (plan : value) (scen : Scenario) :
  complete plan -> 0 <= vol scen ->
  (forall k, exists st, state_after draw g n_sims plan scen k = Ok st) /\
  exists rate med, run_sim draw g n_sims plan scen = Ok (rate, med).
Proof.
  intros Hplan Hvol. destruct (complete_prepare plan Hplan) as (s & ra & Hs & Hra).
  split.
  - intros k. unfold state_after. rewrite Hs, bind_Ok_l.
    now apply (run_years_accepts draw n_sims plan scen s Hplan Hvol ra).
  - unfold run_sim, simulate. rewrite Hs, bind_Ok_l.
    destruct (run_years_accepts draw n_sims plan scen s Hplan Hvol ra
                (seq 1 (Num.arange_len (years s))) (initial g n_sims s) Hra) as [st ->].
    rewrite bind_Ok_l. eauto.
Qed.

Lemma demo_plan_complete : complete demo_plan.
Proof.
  unfold complete, has_number. repeat split; eexists; reflexivity.
Qed.

Lemma run_sim_accepts_witness :
  complete demo_plan /\ 0 <= vol expected /\
  (forall k, exists st, state_after tape_draw demo_tape 2 demo_plan expected k = Ok st) /\
  exists rate med, run_sim tape_draw demo_tape 2 demo_plan expected = Ok (rate, med).
Proof.
  split; [exact demo_plan_complete|]. split; [now apply NumFacts.leb_le|].
  apply (run_sim_accepts tape_draw demo_tape 2 demo_plan expected demo_plan_complete).
  now apply NumFacts.leb_le.
Defined.

(** ** One trial at a time *)

(** The cash flow of a year, the same for all trials: a deposit in an
    accumulation year, a withdrawal in a retirement year. *)
Inductive cash_flow : Type :=
| Deposit (c : Qc)
| Withdrawal (nw : Qc).

(** The cash flow [run_sim] computes in year [year_idx] (lines 44-53). *)
Definition year_cash_flow (plan : value) (scen : Scenario) (s : setup)
    (year_idx : nat) : result cash_flow :=
  ra ← num_of (ret_age s);
  if Num.leb (age_at s year_idx) ra
  then c ← contribution plan scen year_idx; Ok (Deposit c)
  else nw ← net_withdrawal plan scen year_idx; Ok (Withdrawal nw).

(** A year of one trial on its own, as a loop over the trials would run it:
    from the trial's return [r], balance [b] and skip count [a] to its
    balance and skip count at the end of the year. *)
Definition trial_year (cf : cash_flow) (r b : Qc) (a : Z) : Qc * Z :=
  let b1 := b * (1 + r) in
  match cf with
  | Deposit c => (Num.max (b1 + c) 0, a)
  | Withdrawal nw =>
      if Num.ltb 0 r || (a <=? 0)%Z
      then (Num.max (b1 - nw) 0, a)
      else (Num.max b1 0, if Num.ltb 0 b1 then (a - 1)%Z else a)
  end.

Section Pointwise.

Context {G : Type} (draw : G -> Qc -> Qc -> Qc * G).
Variables (n_sims : nat) (plan : value) (scen : Scenario) (s : setup).

(** The returns the year draws from generator state [g]. *)
Definition returns_from (g : G) : list Qc :=
  (draws draw g (avg_return scen) (vol scen) n_sims).1.

Lemma year_step_trial (year_idx : nat) (st st' : @population G) (i : nat)
    (r b : Qc) (a : Z) :
  year_step draw n_sims plan scen s year_idx st = Ok st' ->
  returns_from (rng st) !! i = Some r ->
  portfolios st !! i = Some b -> skips st !! i = Some a ->
  exists cf, year_cash_flow plan scen s year_idx = Ok cf /\
    portfolios st' !! i = Some (trial_year cf r b a).1 /\
    skips st' !! i = Some (trial_year cf r b a).2.
Proof.
  intros H Hr Hb Ha. apply year_step_stages in H as (mr & st1 & st2 & Hm & Hc & ->).
  apply market_step_Ok in Hm as (-> & Hp1 & Hs1). fold (returns_from (rng st)) in *.
  assert (Hb1 : portfolios st1 !! i = Some (b * (1 + r))).
  { rewrite Hp1, lookup_zip_with, Hb. simpl. now rewrite Hr. }
  rewrite <- Hs1 in Ha. pose proof Hc as Hc'.
  apply cash_flow_cases in Hc' as (ra & Hra & [(Hage & c & Hcon & Hp & Hs)|(Hage & _)]).
  - exists (Deposit c). split.
    + unfold year_cash_flow. rewrite Hra, bind_Ok_l.
      apply NumFacts.leb_le in Hage. now rewrite Hage, Hcon.
    + unfold clamp_step. cbn [portfolios skips trial_year fst snd].
      rewrite !list_lookup_fmap, Hp, list_lookup_fmap, Hb1, Hs, Ha. auto.
  - destruct (retirement_trial plan scen s year_idx _ st1 st2 ra i r _ a
                Hra Hage Hc Hr Hb1 Ha) as (nw & Hnw & Hp & Hs).
    exists (Withdrawal nw). split.
    + unfold year_cash_flow. rewrite Hra, bind_Ok_l.
      apply NumFacts.leb_gt in Hage. now rewrite Hage, Hnw.
    + unfold clamp_step. cbn [portfolios skips trial_year].
      rewrite list_lookup_fmap, Hp, Hs. cbn zeta.
      unfold should_withdraw, withdraw, spend_skip, used_skip.
      destruct (Num.ltb 0 r || (a <=? 0)%Z); simpl; auto.
Qed.

End Pointwise.

Section Trials.

Context {G : Type} (draw : G -> Qc -> Qc -> Qc * G).
Variables (g : G) (n_sims : nat) (plan : value) (scen : Scenario).

Abbreviation year_end := (state_after draw g n_sims plan scen).
Abbreviation returns_of := (returns_from draw n_sims scen).

Lemma year_step_cash_flow (s : setup) (year_idx : nat) (st st' : @population G) :
  year_step draw n_sims plan scen s year_idx st = Ok st' ->
  exists cf, year_cash_flow plan scen s year_idx = Ok cf.
Proof.
  intros H. apply year_step_stages in H as (mr & st1 & st2 & _ & Hc & _).
  apply cash_flow_cases in Hc as (ra & Hra & [(Hage & c & Hcon & _)|(Hage & nw & Hnw & _)]);
    unfold year_cash_flow; rewrite Hra, bind_Ok_l.
  - apply NumFacts.leb_le in Hage. rewrite Hage, Hcon. eauto.
  - apply NumFacts.leb_gt in Hage. rewrite Hage, Hnw. eauto.
Qed.

Lemma returns_length (st : @population G) : length (returns_of (rng st)) = n_sims.
Proof. apply draws_length. Qed.

(** The return, balance and skip count of a trial of the population. *)
Lemma trial_state (k : nat) (st : @population G) (i : nat) :
  year_end k = Ok st -> (i < n_sims)%nat ->
  exists r b a, returns_of (rng st) !! i = Some r /\
    portfolios st !! i = Some b /\ skips st !! i = Some a.
Proof.
  intros H Hi. destruct (state_after_sized _ _ _ _ _ _ _ H) as [Hp Hs].
  destruct (lookup_lt_is_Some_2 (returns_of (rng st)) i) as [r Hr];
    [rewrite returns_length; lia|].
  destruct (lookup_lt_is_Some_2 (portfolios st) i) as [b Hb]; [lia|].
  destruct (lookup_lt_is_Some_2 (skips st) i) as [a Ha]; [lia|].
  now exists r, b, a.
Qed.

(** X2. The array operations of a year act on every trial on its own: what
    year [S k] of a run leaves of trial [i] is what the scalar transition
    [trial_year] makes of that trial's return, balance and skip count, under
    the year's one cash flow; and every trial below [n_sims] has all
    three. *)
Theorem year_acts_pointwise (k : nat) (st st' : @population G) :
  year_end k = Ok st -> year_end (S k) = Ok st' ->
  exists s cf,
    prepare plan = Ok s /\
    year_cash_flow plan scen s (S k) = Ok cf /\
    forall i, (i < n_sims)%nat ->
      exists r b a,
        returns_of (rng st) !! i = Some r /\
        portfolios st !! i = Some b /\ skips st !! i = Some a /\
        portfolios st' !! i = Some (trial_year cf r b a).1 /\
        skips st' !! i = Some (trial_year cf r b a).2.
Proof.
  intros H H'. apply state_after_step in H' as (s & st0 & Hs & H0 & Hy).
  assert (st0 = st) as -> by congruence.
  destruct (year_step_cash_flow s (S k) st st' Hy) as [cf Hcf].
  exists s, cf. do 2 (split; [assumption|]). intros i Hi.
  destruct (trial_state k st i H Hi) as (r & b & a & Hr & Hb & Ha).
  exists r, b, a. do 3 (split; [assumption|]).
  destruct (year_step_trial draw n_sims plan scen s (S k) st st' i r b a Hy Hr Hb Ha)
    as (cf' & Hcf' & Hp & Hsk).
  assert (cf' = cf) as -> by congruence. now split.
Qed.

(** X4. Ruin in retirement, one year on: a trial that enters a retirement
    year with a balance of 0, the net withdrawal of the year not being
    negative, leaves it with a balance of 0 and the skip count it had. *)
Theorem depleted_stays_depleted (k : nat) (st st' : @population G) (s : setup)
    (nw : Qc) (i : nat) (a : Z) :
  prepare plan = Ok s ->
  year_end k = Ok st -> year_end (S k) = Ok st' ->
  year_cash_flow plan scen s (S k) = Ok (Withdrawal nw) -> 0 <= nw ->
  portfolios st !! i = Some 0 -> skips st !! i = Some a ->
  portfolios st' !! i = Some 0 /\ skips st' !! i = Some a.
Proof.
  intros Hs H H' Hcf Hnw Hb Ha.
  apply state_after_step in H' as (s' & st0 & Hs' & H0 & Hy).
  assert (s' = s) as -> by congruence. assert (st0 = st) as -> by congruence.
  destruct (trial_state k st i H) as (r & b' & a' & Hr & _ & _);
    [eapply lookup_lt_Some in Hb; now destruct (state_after_sized _ _ _ _ _ _ _ H) as [<- _]|].
  destruct (year_step_trial draw n_sims plan scen s (S k) st st' i r 0 a Hy Hr Hb Ha)
    as (cf & Hcf' & Hp & Hsk).
  assert (cf = Withdrawal nw) as -> by congruence.
  rewrite Hp, Hsk. unfold trial_year. cbn zeta.
  replace (0 * (1 + r)) with 0 by ring.
  assert (Hz : Num.ltb 0 0 = false) by reflexivity.
  assert (Hm : Num.max (0 - nw) 0 = 0).
  { unfold Num.max. assert (Num.leb (0 - nw) 0 = true) as ->; [|reflexivity].
    apply NumFacts.leb_le. apply Qcle_minus_iff.
    replace (0 + - (0 - nw)) with nw by ring. exact Hnw. }
  destruct (Num.ltb 0 r || (a <=? 0)%Z); cbn [fst snd].
  - now rewrite Hm.
  - now rewrite Hz.
Qed.

(** X5. When a skip is spent.  In a retirement year the skip count of a
    trial drops by one exactly when its return is <= 0, its skip count is
    > 0 and its balance after the market step is > 0; in every other case,
    a trial that withdraws included, the count stays as it is. *)
Theorem skip_spent_iff (k : nat) (st st' : @population G) (s : setup)
    (nw : Qc) (i : nat) (r b : Qc) (a : Z) :
  prepare plan = Ok s ->
  year_end k = Ok st -> year_end (S k) = Ok st' ->
  year_cash_flow plan scen s (S k) = Ok (Withdrawal nw) ->
  returns_of (rng st) !! i = Some r ->
  portfolios st !! i = Some b -> skips st !! i = Some a ->
  (skips st' !! i = Some (a - 1)%Z <-> r <= 0 /\ (0 < a)%Z /\ 0 < b * (1 + r)) /\
  (~ (r <= 0 /\ (0 < a)%Z /\ 0 < b * (1 + r)) -> skips st' !! i = Some a).
Proof.
  intros Hs H H' Hcf Hr Hb Ha.
  apply state_after_step in H' as (s' & st0 & Hs' & H0 & Hy).
  assert (s' = s) as -> by congruence. assert (st0 = st) as -> by congruence.
  destruct (year_step_trial draw n_sims plan scen s (S k) st st' i r b a Hy Hr Hb Ha)
    as (cf & Hcf' & _ & Hsk).
  assert (cf = Withdrawal nw) as -> by congruence.
  rewrite Hsk. unfold trial_year. cbn zeta.
  destruct (Num.ltb 0 r) eqn:Er; simpl.
  - apply NumFacts.ltb_lt in Er. split; [split|reflexivity].
    + intros [= E]. lia.
    + intros (Hle & _). exfalso. exact (Qcle_not_lt _ _ Hle Er).
  - apply NumFacts.ltb_ge in Er. destruct (a <=? 0)%Z eqn:Ea; simpl.
    + apply Z.leb_le in Ea. split; [split|reflexivity].
      * intros [= E]. lia.
      * intros (_ & Hpos & _). lia.
    + apply Z.leb_gt in Ea. destruct (Num.ltb 0 (b * (1 + r))) eqn:Eb.
      * apply NumFacts.ltb_lt in Eb. split; [tauto|]. intros Hn. tauto.
      * apply NumFacts.ltb_ge in Eb. split; [split|reflexivity].
        -- intros [= E]. lia.
        -- intros (_ & _ & Hpos). exfalso. exact (Qcle_not_lt _ _ Eb Hpos).
Qed.

End Trials.

(** X3. Trials do not influence one another.  Take two populations (of two
    runs, whatever their generators) in the same year of the same plan and
    scenario: a trial that has the same return, balance and skip count in
    both ends the year with the same balance and skip count in both,
    whatever the other trials hold or draw. *)
Theorem trial_independent {G1 G2 : Type}
    (draw1 : G1 -> Qc -> Qc -> Qc * G1) (draw2 : G2 -> Qc -> Qc -> Qc * G2)
    (n1 n2 : nat) (plan : value) (scen : Scenario) (s : setup) (year_idx : nat)
    (st1 st1' : @population G1) (st2 st2' : @population G2)
    (i j : nat) (r b : Qc) (a : Z) :
  year_step draw1 n1 plan scen s year_idx st1 = Ok st1' ->
  year_step draw2 n2 plan scen s year_idx st2 = Ok st2' ->
  returns_from draw1 n1 scen (rng st1) !! i = Some r ->
  returns_from draw2 n2 scen (rng st2) !! j = Some r ->
  portfolios st1 !! i = Some b -> portfolios st2 !! j = Some b ->
  skips st1 !! i = Some a -> skips st2 !! j = Some a ->
  portfolios st1' !! i = portfolios st2' !! j /\
  skips st1' !! i = skips st2' !! j.
Proof.
  intros H1 H2 Hr1 Hr2 Hb1 Hb2 Ha1 Ha2.
  destruct (year_step_trial draw1 n1 plan scen s year_idx st1 st1' i r b a H1 Hr1 Hb1 Ha1)
    as (cf1 & Hcf1 & Hp1 & Hs1).
  destruct (year_step_trial draw2 n2 plan scen s year_idx st2 st2' j r b a H2 Hr2 Hb2 Ha2)
    as (cf2 & Hcf2 & Hp2 & Hs2).
  assert (cf2 = cf1) as -> by congruence.
  now rewrite Hp1, Hp2, Hs1, Hs2.
Qed.

(** ** Invariants of a run *)

Lemma of_nat_le (j k : nat) : (j <= k)%nat -> Num.of_nat j <= Num.of_nat k.
Proof.
  intros H. unfold Qcle. rewrite !StatsFacts.of_nat_this, <- Zle_Qle. lia.
Qed.

Lemma age_at_le (s : setup) (j k : nat) : (j <= k)%nat -> age_at s j <= age_at s k.
Proof.
  intros H. unfold age_at. apply Qcplus_le_compat; [apply Qcle_refl|now apply of_nat_le].
Qed.

Section Invariants.

Context {G : Type} (draw : G -> Qc -> Qc -> Qc * G).
Variables (g : G) (n_sims : nat) (plan : value) (scen : Scenario).

Abbreviation year_end := (state_after draw g n_sims plan scen).

(** X6. No skip is spent before retirement: as long as the age of year [k]
    is not above the retirement age, every trial still has the skip count it
    started with. *)
Theorem skips_untouched_before_retirement (s : setup) (ra : Qc) (k : nat)
    (st : @population G) :
  prepare plan = Ok s -> num_of (ret_age s) = Ok ra ->
  age_at s k <= ra -> year_end k = Ok st ->
  skips st = replicate n_sims (emergency_savings s).
Proof.
  intros Hs Hra. revert st. induction k as [|k IH]; intros st Hage H.
  - rewrite (state_after_0 draw g n_sims plan scen s Hs) in H. now injection H as <-.
  - apply state_after_step in H as (s' & st0 & Hs' & H0 & Hy).
    assert (s' = s) as -> by congruence.
    assert (Hage0 : age_at s k <= ra).
    { eapply Qcle_trans; [apply (age_at_le s k (S k)); lia|exact Hage]. }
    specialize (IH st0 Hage0 H0).
    apply year_step_stages in Hy as (mr & st1 & st2 & Hm & Hc & ->).
    apply market_step_Ok in Hm as (_ & _ & Hs1).
    apply cash_flow_cases in Hc as (ra' & Hra' & [(_ & c & _ & _ & Hsk)|(Hlt & _)]).
    + cbn [clamp_step skips]. now rewrite Hsk, Hs1.
    + assert (ra' = ra) as -> by congruence.
      exfalso. exact (Qcle_not_lt _ _ Hage Hlt).
Qed.

(** X7. The two arrays keep one entry per trial: after every year that a
    run reaches, there are [n_sims] balances and [n_sims] skip counts, and
    the year draws [n_sims] returns. *)
Theorem population_keeps_size (k : nat) (st : @population G) :
  year_end k = Ok st ->
  length (portfolios st) = n_sims /\ length (skips st) = n_sims /\
  length (returns_from draw n_sims scen (rng st)) = n_sims.
Proof.
  intros H. destruct (state_after_sized draw g n_sims plan scen k st H) as [Hp Hs].
  split; [exact Hp|]. split; [exact Hs|]. apply draws_length.
Qed.

Lemma draws_fixed (c : Qc) (g' : G) (size : nat) :
  (forall g', (draw g' (avg_return scen) (vol scen)).1 = c) ->
  (draws draw g' (avg_return scen) (vol scen) size).1 = replicate size c.
Proof.
  intros Hc. revert g'. induction size as [|n IH]; intros g'; simpl; [reflexivity|].
  specialize (Hc g'). destruct (draw g' _ _) as [x g1]. simpl in Hc. subst x.
  specialize (IH g1). destruct (draws draw g1 _ _ n) as [xs g2]. simpl in *.
  now rewrite IH.
Qed.

(** X8. With a generator that answers one fixed value at every call, all
    trials of a run move together: after every year all balances are equal
    and all skip counts are equal. *)
Theorem fixed_returns_uniform (c : Qc) (k : nat) (st : @population G) :
  (forall g', (draw g' (avg_return scen) (vol scen)).1 = c) ->
  year_end k = Ok st ->
  exists b a, portfolios st = replicate n_sims b /\ skips st = replicate n_sims a.
Proof.
  intros Hc. revert st. induction k as [|k IH]; intros st H.
  - destruct (state_after_prepare _ _ _ _ _ _ _ H) as [s Hs].
    rewrite (state_after_0 draw g n_sims plan scen s Hs) in H. injection H as <-.
    now exists (portfolio_current s), (emergency_savings s).
  - apply state_after_step in H as (s & st0 & Hs & H0 & Hy).
    destruct (IH st0 H0) as (b & a & Hb & Ha).
    apply year_step_stages in Hy as (mr & st1 & st2 & Hm & Hcf & ->).
    apply market_step_Ok in Hm as (-> & Hp1 & Hs1).
    rewrite (draws_fixed c _ _ Hc), Hb, zip_with_replicate in Hp1. rewrite Ha in Hs1.
    apply cash_flow_cases in Hcf as (ra & _ & [(_ & x & _ & Hp & Hsk)|(_ & nw & _ & Hp & Hsk)]);
      cbn [clamp_step portfolios skips].
    + rewrite Hp, Hp1, Hsk, Hs1, !fmap_replicate. eexists _, _. split; reflexivity.
    + cbn zeta in Hp, Hsk. rewrite (draws_fixed c _ _ Hc), Hs1, Hp1 in Hp, Hsk.
      rewrite !zip_with_replicate in Hp. rewrite !zip_with_replicate in Hsk.
      rewrite Hp, Hsk, !fmap_replicate. eexists _, _. split; reflexivity.
Qed.

End Invariants.

(** ** The outputs *)

Lemma half_between (lo hi a b : Qc) :
  lo <= a -> a <= hi -> lo <= b -> b <= hi ->
  lo <= (a + b) / Num.of_Z 2 /\ (a + b) / Num.of_Z 2 <= hi.
Proof.
  unfold Qcle, Qcdiv, Qcmult, Qcplus, Qcinv, Num.of_Z, Q2Qc. simpl this.
  rewrite !Qred_correct. change (inject_Z 2) with 2%Q. intros. split.
  - apply Qle_shift_div_l; [reflexivity|]. lra.
  - apply Qle_shift_div_r; [reflexivity|]. lra.
Qed.

(** The median lies between any two bounds of the data. *)
Lemma median_between (l : list Qc) (lo hi m : Qc) :
  (forall b, b ∈ l -> lo <= b /\ b <= hi) ->
  Stats.median l = Some m -> lo <= m /\ m <= hi.
Proof.
  intros Hl H. apply median_is_median in H as (sorted & Hperm & _ & H).
  assert (Hin : forall i x, sorted !! i = Some x -> lo <= x /\ x <= hi).
  { intros i x Hx. apply Hl. rewrite <- Hperm. eapply list_elem_of_lookup_2, Hx. }
  cbn zeta in H. destruct (Nat.odd (length l)).
  - eapply Hin, H.
  - destruct H as (a & b & Ha & Hb & ->).
    destruct (Hin _ _ Ha), (Hin _ _ Hb). now apply half_between.
Qed.

Lemma count_pos_all (l : list Qc) :
  Stats.count_pos l = length l <-> forall b, b ∈ l -> 0 < b.
Proof.
  unfold Stats.count_pos. induction l as [|x l IH].
  - split; [intros _ b Hb; now apply elem_of_nil in Hb|reflexivity].
  - rewrite filter_cons. destruct (decide (Num.ltb 0 x = true)) as [E|E]; simpl.
    + split.
      * intros [= H] b [->|Hb]%elem_of_cons; [now apply NumFacts.ltb_lt|].
        now apply IH.
      * intros H. f_equal. apply IH. intros b Hb. apply H. now right.
    + split.
      * intros H. pose proof (length_filter (fun p => Num.ltb 0 p = true) l). lia.
      * intros H. exfalso. apply E, NumFacts.ltb_lt, H. now left.
Qed.

Lemma count_pos_none (l : list Qc) :
  Stats.count_pos l = O <-> forall b, b ∈ l -> b <= 0.
Proof.
  unfold Stats.count_pos. induction l as [|x l IH].
  - split; [intros _ b Hb; now apply elem_of_nil in Hb|reflexivity].
  - rewrite filter_cons. destruct (decide (Num.ltb 0 x = true)) as [E|E]; simpl.
    + split; [discriminate|]. intros H. exfalso.
      apply NumFacts.ltb_lt in E. apply (Qcle_not_lt x 0); [apply H; now left|exact E].
    + split.
      * intros H b [->|Hb]%elem_of_cons; [|now apply IH].
        apply NumFacts.ltb_ge. now destruct (Num.ltb 0 x).
      * intros H. apply IH. intros b Hb. apply H. now right.
Qed.

Section OutputFacts.

Context {G : Type} (draw : G -> Qc -> Qc -> Qc * G).
Variables (g : G) (n_sims : nat) (plan : value) (scen : Scenario).

Lemma simulate_floor (s : setup) (st : @population G) (b : Qc) :
  prepare plan = Ok s -> (1 <= Num.arange_len (years s))%nat ->
  simulate draw g n_sims plan scen = Ok st -> b ∈ portfolios st -> 0 <= b.
Proof.
  intros Hs Hy H Hb. rewrite (simulate_state_after draw g n_sims plan scen s Hs) in H.
  destruct (Num.arange_len (years s)) as [|k]; [lia|].
  apply state_after_step in H as (s' & st0 & _ & _ & H).
  eapply year_step_floor; eauto.
Qed.

(** X9. When at least one year is simulated, the median ending balance
    [run_sim] returns is not negative. *)
Theorem median_not_negative (s : setup) (rate : option Qc) (m : Qc) :
  prepare plan = Ok s -> (1 <= Num.arange_len (years s))%nat ->
  run_sim draw g n_sims plan scen = Ok (rate, Some m) ->
  0 <= m.
Proof.
  intros Hs Hy H. unfold run_sim in H. apply bind_Ok in H as (st & Hst & [= _ Hm]).
  destruct (Stats.median (portfolios st)) as [m'|] eqn:E; [|discriminate].
  injection Hm as ->.
  assert (Hall : forall b, b ∈ portfolios st -> 0 <= b)
    by (intros b; now apply (simulate_floor s st b)).
  destruct (portfolios st) as [|x l] eqn:El; [discriminate|].
  assert (Hhi : exists hi, forall b, b ∈ x :: l -> b <= hi).
  { clear -l. generalize (x :: l). intros l0. induction l0 as [|y l0 [hi IH]].
    - exists 0. intros b Hb. now apply elem_of_nil in Hb.
    - destruct (Qclt_le_dec hi y) as [Hlt|Hle].
      + exists y. intros b [->|Hb]%elem_of_cons; [apply Qcle_refl|].
        eapply Qcle_trans; [now apply IH|now apply Qclt_le_weak].
      + exists hi. intros b [->|Hb]%elem_of_cons; [exact Hle|now apply IH]. }
  destruct Hhi as [hi Hhi].
  now destruct (median_between (x :: l) 0 hi m (fun b Hb => conj (Hall b Hb) (Hhi b Hb)) E).
Qed.

(** X10. The two ends of the success rate.  For a run of at least one trial
    the rate returned is 100 exactly when every final balance is > 0, and 0
    exactly when none is. *)
Theorem success_rate_extremes (rate : Qc) (med : option Qc) :
  (1 <= n_sims)%nat ->
  run_sim draw g n_sims plan scen = Ok (Some rate, med) ->
  exists st : @population G,
    simulate draw g n_sims plan scen = Ok st /\
    (rate = Num.of_Z 100 <-> forall b, b ∈ portfolios st -> 0 < b) /\
    (rate = 0 <-> forall b, b ∈ portfolios st -> b <= 0).
Proof.
  intros Hn H. unfold run_sim in H. apply bind_Ok in H as (st & Hst & [= Hr _]).
  exists st. split; [exact Hst|].
  destruct (simulate_sized draw g n_sims plan scen st Hst) as [Hlen _].
  unfold Stats.success_rate in Hr. destruct n_sims as [|n'] eqn:En; [lia|].
  rewrite <- En in *. injection Hr as <-. split.
  - rewrite rate_full by lia. rewrite <- Hlen. apply count_pos_all.
  - rewrite rate_null by lia. apply count_pos_none.
Qed.

End OutputFacts.

(** ** Fields read inside the loop *)

Section LateFields.

Context {G : Type} (draw : G -> Qc -> Qc -> Qc * G).
Variables (g : G) (n_sims : nat) (scen : Scenario).

Lemma run_years_ext (plan plan' : value) (s : setup) (idxs : list nat)
    (st : @population G) :
  (forall y st0, y ∈ idxs ->
     year_step draw n_sims plan' scen s y st0 = year_step draw n_sims plan scen s y st0) ->
  run_years draw n_sims plan' scen s idxs st = run_years draw n_sims plan scen s idxs st.
Proof.
  revert st. induction idxs as [|y idxs IH]; intros st H; simpl; [reflexivity|].
  rewrite H by now left.
  destruct (year_step draw n_sims plan scen s y st) as [st'|e]; [|reflexivity].
  rewrite !bind_Ok_l. apply IH. intros y' st0 Hy'. apply H. now right.
Qed.

Lemma year_step_phase (plan plan' : value) (s : setup) (y : nat) (st : @population G) :
  year_cash_flow plan' scen s y = year_cash_flow plan scen s y ->
  year_step draw n_sims plan' scen s y st = year_step draw n_sims plan scen s y st.
Proof.
  intros H. unfold year_step. destruct (market_step draw n_sims scen st) as [[mr st1]|e];
    [|reflexivity].
  rewrite !bind_Ok_l. f_equal. unfold cash_flow_step.
  unfold year_cash_flow, age_at in H.
  destruct (num_of (ret_age s)) as [ra|e]; [|reflexivity]. rewrite !bind_Ok_l in *.
  destruct (Num.leb (curr_age s + Num.of_nat y) ra).
  - destruct (contribution plan' scen y) as [c'|e'], (contribution plan scen y) as [c|e];
      simpl in *; first [discriminate | injection H as ->; reflexivity].
  - destruct (net_withdrawal plan' scen y) as [c'|e'], (net_withdrawal plan scen y) as [c|e];
      simpl in *; first [discriminate | injection H as ->; reflexivity].
Qed.

(** X11. The monthly deposit is only read in accumulation years.  For a
    saver already past the retirement age in the first year, two plans that
    differ in nothing but what the accumulation branch reads (the monthly
    deposit, which may even be missing) give the same run: the same outputs
    or the same exception. *)
Theorem retired_ignores_deposit (plan plan' : value) (s : setup) (ra : Qc) :
  prepare plan = Ok s -> prepare plan' = Ok s ->
  (forall y, net_withdrawal plan' scen y = net_withdrawal plan scen y) ->
  num_of (ret_age s) = Ok ra -> ra < age_at s 1 ->
  run_sim draw g n_sims plan' scen = run_sim draw g n_sims plan scen.
Proof.
  intros Hs Hs' Hnw Hra Hage. unfold run_sim, simulate. rewrite Hs, Hs', !bind_Ok_l.
  f_equal. apply run_years_ext. intros y st0 Hy. apply year_step_phase.
  apply elem_of_seq in Hy as [Hy _].
  unfold year_cash_flow. rewrite Hra, !bind_Ok_l.
  assert (Num.leb (age_at s y) ra = false) as ->; [|now rewrite Hnw].
  apply NumFacts.leb_gt. eapply Qclt_le_trans; [exact Hage|]. now apply age_at_le.
Qed.

(** X12. The spending fields are only read in retirement years.  When the
    last simulated year is still not above the retirement age, two plans
    that differ in nothing but what the retirement branch reads (annual
    spend, social security, annual dividends: any of them may be missing)
    give the same run. *)
Theorem saver_ignores_spending (plan plan' : value) (s : setup) (ra : Qc) :
  prepare plan = Ok s -> prepare plan' = Ok s ->
  (forall y, contribution plan' scen y = contribution plan scen y) ->
  num_of (ret_age s) = Ok ra -> age_at s (Num.arange_len (years s)) <= ra ->
  run_sim draw g n_sims plan' scen = run_sim draw g n_sims plan scen.
Proof.
  intros Hs Hs' Hc Hra Hage. unfold run_sim, simulate. rewrite Hs, Hs', !bind_Ok_l.
  f_equal. apply run_years_ext. intros y st0 Hy. apply year_step_phase.
  apply elem_of_seq in Hy as [_ Hy].
  unfold year_cash_flow. rewrite Hra, !bind_Ok_l.
  assert (Num.leb (age_at s y) ra = true) as ->; [|now rewrite Hc].
  apply NumFacts.leb_le. eapply Qcle_trans; [|exact Hage]. apply age_at_le. lia.
Qed.

Lemma cash_flow_step_Raise (plan : value) (s : setup) (y : nat) (mr : list Qc)
    (st : @population G) (e : exn) :
  year_cash_flow plan scen s y = Raise e ->
  cash_flow_step plan scen s y mr st = Raise e.
Proof.
  unfold year_cash_flow, cash_flow_step, age_at.
  destruct (num_of (ret_age s)) as [ra|e0]; [|simpl; now intros [= ->]].
  rewrite !bind_Ok_l.
  destruct (Num.leb (curr_age s + Num.of_nat y) ra).
  - destruct (contribution plan scen y); simpl; [discriminate|now intros [= ->]].
  - destruct (net_withdrawal plan scen y); simpl; [discriminate|now intros [= ->]].
Qed.

(** X13. An exception of a year's cash flow (a field of the year's phase
    missing, or not a number) is the exception of the run, and it is raised
    late: the years before have run, and the year's returns are drawn. *)
Theorem cash_flow_error_surfaces (plan : value) (s : setup) (k : nat)
    (st : @population G) (e : exn) :
  prepare plan = Ok s -> 0 <= vol scen ->
  state_after draw g n_sims plan scen k = Ok st ->
  year_cash_flow plan scen s (S k) = Raise e ->
  (S k <= Num.arange_len (years s))%nat ->
  (exists mr st1, market_step draw n_sims scen st = Ok (mr, st1)) /\
  state_after draw g n_sims plan scen (S k) = Raise e /\
  run_sim draw g n_sims plan scen = Raise e.
Proof.
  intros Hs Hvol H Hcf Hk.
  assert (Hm : exists mr st1, market_step draw n_sims scen st = Ok (mr, st1)).
  { unfold market_step, random_normal.
    assert (Num.ltb (vol scen) 0 = false) as -> by now apply NumFacts.ltb_ge.
    rewrite bind_Ok_l. destruct (draws draw _ _ _ _) as [mr g']. eauto. }
  assert (Hy : state_after draw g n_sims plan scen (S k) = Raise e).
  { rewrite (state_after_S draw g n_sims plan scen s k Hs), H, bind_Ok_l.
    destruct Hm as (mr & st1 & Hm). unfold year_step. rewrite Hm, bind_Ok_l.
    now rewrite (cash_flow_step_Raise plan s (S k) mr st1 e Hcf). }
  split; [exact Hm|]. split; [exact Hy|].
  unfold run_sim, simulate. unfold state_after in Hy. rewrite Hs, bind_Ok_l in *.
  replace (Num.arange_len (years s)) with (S k + (Num.arange_len (years s) - S k))%nat by lia.
  rewrite seq_app, run_years_app, Hy. reflexivity.
Qed.

End LateFields.

(** * Comments in the plan file ([load_jsonc], lines 13-14)

    [load_jsonc] reads the file, deletes the comments with two regular
    expression substitutions and hands the rest to [json.loads].  The two
    substitutions are embedded here, on the text as a list of characters;
    reading the file and parsing JSON are not. *)

From Stdlib Require Import Ascii.

Module Jsonc.

#[local] Open Scope char_scope.

Definition slash : ascii := "/".
Definition star : ascii := "*".
Definition newline : ascii := "010".

(** [re.sub(pattern, '', text)] for a pattern that matches no empty string.
    [matcher s] is the length of the match of the pattern at the start of
    [s], if it matches there.  The text is scanned from the left; where the
    pattern matches, the match is deleted and the scan resumes behind it;
    elsewhere the character is kept.  [skip] counts the characters of the
    current match that are still to be deleted. *)
Fixpoint delete_matches (matcher : list ascii -> option nat) (skip : nat)
    (text : list ascii) : list ascii :=
  match text with
  | [] => []
  | c :: rest =>
      match skip with
      | S k => delete_matches matcher k rest
      | O =>
          match matcher text with
          | Some (S k) => delete_matches matcher k rest
          | _ => c :: delete_matches matcher 0 rest
          end
      end
  end.

(** The number of characters up to the end of the first [*/] in [s]: what
    the lazy [.*?\*/] consumes (with DOTALL, [.] is any character). *)
Fixpoint to_close (s : list ascii) : option nat :=
  match s with
  | [] => None
  | c1 :: rest =>
      match rest with
      | c2 :: _ =>
          if Ascii.eqb c1 star && Ascii.eqb c2 slash then Some 2%nat
          else S <$> to_close rest
      | [] => None
      end
  end.

(** The pattern [/\*.*?\*/] at the start of [s]. *)
Definition block_comment (s : list ascii) : option nat :=
  match s with
  | c1 :: c2 :: rest =>
      if Ascii.eqb c1 slash && Ascii.eqb c2 star
      then n ← to_close rest; Some (2 + n)%nat
      else None
  | _ => None
  end.

(** The number of characters before the first newline of [s]: what the
    greedy [.*] consumes (without DOTALL, [.] is any character but the
    newline). *)
Fixpoint to_eol (s : list ascii) : nat :=
  match s with
  | [] => O
  | c :: rest => if Ascii.eqb c newline then O else S (to_eol rest)
  end.

(** The pattern [//.*] at the start of [s]. *)
Definition line_comment (s : list ascii) : option nat :=
  match s with
  | c1 :: c2 :: rest =>
      if Ascii.eqb c1 slash && Ascii.eqb c2 slash
      then Some (2 + to_eol rest)%nat
      else None
  | _ => None
  end.

(** Line 13. *)
Definition strip_block (content : list ascii) : list ascii :=
  delete_matches block_comment 0 content.

(** Line 14. *)
Definition strip_line (content : list ascii) : list ascii :=
  delete_matches line_comment 0 content.

(** Lines 13-14: the text [json.loads] is given. *)
Definition strip_comments (content : list ascii) : list ascii :=
  strip_line (strip_block content).

(** [x] directly followed by [y] somewhere in [l]. *)
Definition adjacent (x y : ascii) (l : list ascii) : Prop :=
  exists i, l !! i = Some x /\ l !! S i = Some y.

(** The number of newlines of a text. *)
Definition newlines (l : list ascii) : nat :=
  length (filter (fun c => c = newline) l).

End Jsonc.

Module JsoncFacts.

Import Jsonc.

(** *** The scan *)

Lemma delete_skip (m : list ascii -> option nat) (k : nat) (s : list ascii) :
  delete_matches m k s = delete_matches m 0 (drop k s).
Proof.
  revert k. induction s as [|c s IH]; intros [|k]; simpl; try reflexivity.
  apply IH.
Qed.

(** The scan at a position: a match is dropped whole, another character is
    kept. *)
Lemma delete_at (m : list ascii -> option nat) (c : ascii) (rest : list ascii) :
  delete_matches m 0 (c :: rest) =
  match m (c :: rest) with
  | Some (S k) => delete_matches m 0 (drop k rest)
  | _ => c :: delete_matches m 0 rest
  end.
Proof.
  simpl. destruct (m (c :: rest)) as [[|k]|]; try reflexivity. apply delete_skip.
Qed.

Lemma delete_sublist (m : list ascii -> option nat) (k : nat) (s : list ascii) :
  delete_matches m k s `sublist_of` s.
Proof.
  revert k. induction s as [|c s IH]; intros k; simpl; [constructor|].
  destruct k as [|k]; [|apply sublist_cons, IH].
  destruct (m (c :: s)) as [[|j]|].
  - apply sublist_skip, IH.
  - apply sublist_cons, IH.
  - apply sublist_skip, IH.
Qed.

(** A text in which the pattern matches nowhere is left as it is. *)
Lemma delete_nowhere (m : list ascii -> option nat) (s : list ascii) :
  (forall k, m (drop k s) = None) -> delete_matches m 0 s = s.
Proof.
  induction s as [|c s IH]; intros H; [reflexivity|].
  rewrite delete_at. rewrite (H O : m (c :: s) = None). f_equal.
  apply IH. intros k. apply (H (S k)).
Qed.

(** A stretch of text in which the pattern matches nowhere is copied. *)
Lemma delete_prefix (m : list ascii -> option nat) (a t : list ascii) :
  (forall k, (k < length a)%nat -> m (drop k (a ++ t)) = None) ->
  delete_matches m 0 (a ++ t) = a ++ delete_matches m 0 t.
Proof.
  induction a as [|c a IH]; intros H; [reflexivity|].
  rewrite <- !app_comm_cons, delete_at.
  rewrite (H O ltac:(simpl; lia) : m (c :: a ++ t) = None). f_equal.
  apply IH. intros k Hk. apply (H (S k)). simpl. lia.
Qed.

(** *** Pairs of characters *)

Lemma adjacent_nil (x y : ascii) : ~ adjacent x y [].
Proof. intros (i & H & _). now rewrite lookup_nil in H. Qed.

Lemma adjacent_cons (x y c : ascii) (l : list ascii) :
  adjacent x y (c :: l) <-> (c = x /\ head l = Some y) \/ adjacent x y l.
Proof.
  split.
  - intros ([|i] & H1 & H2); simpl in *.
    + left. injection H1 as ->. split; [reflexivity|]. now destruct l.
    + right. now exists i.
  - intros [[-> H]|(i & H1 & H2)].
    + exists O. simpl. split; [reflexivity|]. now destruct l.
    + now exists (S i).
Qed.

Lemma adjacent_drop (x y : ascii) (k : nat) (l : list ascii) :
  adjacent x y (drop k l) -> adjacent x y l.
Proof.
  revert l. induction k as [|k IH]; intros [|c l]; simpl; auto.
  intros H. apply adjacent_cons. right. now apply IH.
Qed.

Lemma adjacent_app_l (x y : ascii) (l t : list ascii) :
  adjacent x y l -> adjacent x y (l ++ t).
Proof.
  intros (i & H1 & H2). exists i. split; now apply lookup_app_l_Some.
Qed.

Lemma eqb_pair (c1 c2 x y : ascii) :
  Ascii.eqb c1 x && Ascii.eqb c2 y = true <-> c1 = x /\ c2 = y.
Proof. now rewrite andb_true_iff, !Ascii.eqb_eq. Qed.

(** A matcher that asks for the two characters [x y] first. *)
Definition starts_with (x y : ascii) (m : list ascii -> option nat) : Prop :=
  forall s n, m s = Some n ->
    exists rest, s = x :: y :: rest.

Lemma block_comment_starts : starts_with slash star block_comment.
Proof.
  intros [|c1 [|c2 rest]] n; simpl; try discriminate.
  destruct (Ascii.eqb c1 slash && Ascii.eqb c2 star) eqn:E; [|discriminate].
  apply eqb_pair in E as [-> ->]. eauto.
Qed.

Lemma line_comment_starts : starts_with slash slash line_comment.
Proof.
  intros [|c1 [|c2 rest]] n; simpl; try discriminate.
  destruct (Ascii.eqb c1 slash && Ascii.eqb c2 slash) eqn:E; [|discriminate].
  apply eqb_pair in E as [-> ->]. eauto.
Qed.

(** Where the two characters do not occur, the matcher fails. *)
Lemma no_match_without (x y : ascii) (m : list ascii -> option nat) (s : list ascii) :
  starts_with x y m -> ~ adjacent x y s -> forall k, m (drop k s) = None.
Proof.
  intros Hm Hs k. destruct (m (drop k s)) as [n|] eqn:E; [|reflexivity].
  destruct (Hm _ _ E) as [rest Hrest]. exfalso. apply Hs.
  apply (adjacent_drop x y k). rewrite Hrest. exists O. now split.
Qed.

(** In a stretch [a] without the two characters, followed by [t], the
    matcher fails at every position of [a], unless the pair straddles the
    end of [a]. *)
Lemma no_match_prefix (x y : ascii) (m : list ascii -> option nat) (a t : list ascii) :
  starts_with x y m -> ~ adjacent x y a ->
  last a <> Some x \/ head t <> Some y ->
  forall k, (k < length a)%nat -> m (drop k (a ++ t)) = None.
Proof.
  intros Hm Ha Hend k Hk. destruct (m (drop k (a ++ t))) as [n|] eqn:E; [|reflexivity].
  destruct (Hm _ _ E) as [rest Hrest]. exfalso.
  assert (H0 : (a ++ t) !! k = Some x).
  { rewrite <- (Nat.add_0_r k), <- lookup_drop, Hrest. reflexivity. }
  assert (H1 : (a ++ t) !! S k = Some y).
  { rewrite <- (Nat.add_1_r k), <- lookup_drop, Hrest. reflexivity. }
  rewrite lookup_app_l in H0 by exact Hk.
  destruct (decide (S k < length a)%nat) as [Hlt|Hge].
  - rewrite lookup_app_l in H1 by exact Hlt. apply Ha. now exists k.
  - assert (S k = length a) as Hl by lia.
    rewrite lookup_app_r in H1 by lia.
    replace (S k - length a)%nat with O in H1 by lia. rewrite <- head_lookup in H1.
    destruct Hend as [Hend|Hend]; [|contradiction].
    apply Hend. rewrite last_lookup, <- Hl. exact H0.
Qed.

(** *** Block comments *)

Lemma to_close_adjacent (s : list ascii) (n : nat) :
  to_close s = Some n -> adjacent star slash s.
Proof.
  revert n. induction s as [|c1 s IH]; intros n; simpl; [discriminate|].
  destruct s as [|c2 s]; [discriminate|].
  destruct (Ascii.eqb c1 star && Ascii.eqb c2 slash) eqn:E.
  - intros _. apply eqb_pair in E as [-> ->]. exists O. now split.
  - intros H. destruct (to_close (c2 :: s)) as [j|]; [|discriminate].
    apply adjacent_cons. right. now apply (IH j).
Qed.

(** The lazy match ends at the first terminator. *)
Lemma to_close_first (b c : list ascii) :
  ~ adjacent star slash b ->
  to_close (b ++ star :: slash :: c) = Some (length b + 2)%nat.
Proof.
  induction b as [|x b IH]; intros Hb; [reflexivity|].
  assert (Hb' : ~ adjacent star slash b).
  { intros H. apply Hb, adjacent_cons. now right. }
  change ((x :: b) ++ star :: slash :: c) with (x :: (b ++ star :: slash :: c)).
  cbn [to_close]. rewrite (IH Hb').
  destruct (b ++ star :: slash :: c) as [|y r] eqn:El; [now destruct b|].
  destruct (Ascii.eqb x star && Ascii.eqb y slash) eqn:E; [|reflexivity].
  apply eqb_pair in E as [-> ->]. exfalso.
  destruct b as [|y' b]; [discriminate|]. injection El as -> _.
  apply Hb, adjacent_cons. now left.
Qed.

Lemma block_comment_Some (s : list ascii) (n : nat) :
  block_comment s = Some n ->
  exists rest j, s = slash :: star :: rest /\ to_close rest = Some j /\ n = (2 + j)%nat.
Proof.
  destruct s as [|c1 [|c2 rest]]; simpl; try discriminate.
  destruct (Ascii.eqb c1 slash && Ascii.eqb c2 star) eqn:E; [|discriminate].
  apply eqb_pair in E as [-> ->].
  destruct (to_close rest) as [j|] eqn:Ej; simpl; [|discriminate].
  intros [= <-]. exists rest, j. repeat split. exact Ej.
Qed.

(** X14. Stripping only deletes: what is left of the text after both
    substitutions is the text with some characters taken out, in their
    order (and so it is no longer than the text). *)
Theorem strip_only_deletes (content : list ascii) :
  strip_comments content `sublist_of` content /\
  (length (strip_comments content) <= length content)%nat.
Proof.
  assert (H : strip_comments content `sublist_of` content).
  { unfold strip_comments, strip_line, strip_block.
    etransitivity; apply delete_sublist. }
  split; [exact H|]. now apply sublist_length.
Qed.

(** X15. A text without comment markers (no [/*] and no [//]) goes through
    unchanged. *)
Theorem comment_free_unchanged (content : list ascii) :
  ~ adjacent slash star content -> ~ adjacent slash slash content ->
  strip_comments content = content.
Proof.
  intros Hb Hl. unfold strip_comments, strip_block, strip_line.
  rewrite (delete_nowhere block_comment content)
    by (apply (no_match_without slash star); [apply block_comment_starts|exact Hb]).
  apply delete_nowhere.
  apply (no_match_without slash slash); [apply line_comment_starts|exact Hl].
Qed.

(** X16. A block comment that is never closed is not a comment: a text
    without [*/] is left as it is by the block-comment substitution. *)
Theorem unterminated_block_kept (content : list ascii) :
  ~ adjacent star slash content -> strip_block content = content.
Proof.
  intros H. apply delete_nowhere. intros k.
  destruct (block_comment (drop k content)) as [n|] eqn:E; [|reflexivity].
  apply block_comment_Some in E as (rest & j & Hrest & Hj & _).
  exfalso. apply H, (adjacent_drop star slash k). rewrite Hrest.
  apply adjacent_cons. right. apply adjacent_cons. right.
  eapply to_close_adjacent, Hj.
Qed.

(** X17. A block comment ends at its first terminator.  After a stretch [a]
    without [/*], the comment [/* b */] with no [*/] inside [b] is deleted
    whole, and the scan goes on behind it. *)
Theorem block_comment_removed (a b c : list ascii) :
  ~ adjacent slash star a -> ~ adjacent star slash b ->
  strip_block (a ++ slash :: star :: b ++ star :: slash :: c) = a ++ strip_block c.
Proof.
  intros Ha Hb. unfold strip_block.
  rewrite delete_prefix.
  2:{ apply (no_match_prefix slash star); [apply block_comment_starts|exact Ha|].
      right. simpl. discriminate. }
  f_equal. rewrite delete_at.
  assert (block_comment (slash :: star :: b ++ star :: slash :: c)
          = Some (S (S (length b + 2)))) as ->.
  { cbn [block_comment]. rewrite (to_close_first b c Hb). reflexivity. }
  f_equal. cbn [drop]. now rewrite drop_app_add.
Qed.

(** *** Line comments *)

Lemma line_comment_Some (s : list ascii) (n : nat) :
  line_comment s = Some n ->
  exists rest, s = slash :: slash :: rest /\ n = (2 + to_eol rest)%nat.
Proof.
  destruct s as [|c1 [|c2 rest]]; simpl; try discriminate.
  destruct (Ascii.eqb c1 slash && Ascii.eqb c2 slash) eqn:E; [|discriminate].
  apply eqb_pair in E as [-> ->]. intros [= <-]. now exists rest.
Qed.

Lemma to_eol_end (b e : list ascii) :
  newline ∉ b -> head e = Some newline \/ e = [] -> to_eol (b ++ e) = length b.
Proof.
  intros Hb He. induction b as [|x b IH]; simpl.
  - destruct He as [He| ->]; [|reflexivity].
    destruct e as [|y e]; [discriminate|]. injection He as ->. reflexivity.
  - destruct (Ascii.eqb x newline) eqn:E.
    + apply Ascii.eqb_eq in E. subst x. exfalso. apply Hb. now left.
    + f_equal. apply IH. intros H. apply Hb. now right.
Qed.

(** X18. A line comment runs to the end of its line, and only there.  After
    a stretch [a] without [//] that does not end in a slash, the comment
    [// b], [b] without a newline, is deleted up to the newline, which stays,
    or up to the end of the text; whether the [//] stands inside a JSON
    string makes no difference. *)
Theorem line_comment_removed (a b c : list ascii) :
  ~ adjacent slash slash a -> last a <> Some slash -> newline ∉ b ->
  strip_line (a ++ slash :: slash :: b ++ newline :: c) = a ++ newline :: strip_line c /\
  strip_line (a ++ slash :: slash :: b) = a.
Proof.
  intros Ha Hlast Hb. unfold strip_line.
  assert (Hpre : forall t k, (k < length a)%nat -> line_comment (drop k (a ++ t)) = None).
  { intros t. apply (no_match_prefix slash slash); [apply line_comment_starts|exact Ha|].
    now left. }
  split.
  - rewrite delete_prefix by apply Hpre. f_equal. rewrite delete_at.
    cbn [line_comment Ascii.eqb slash Bool.eqb andb].
    rewrite (to_eol_end b (newline :: c) Hb) by now left.
    cbn [Nat.add drop]. rewrite drop_app_length, delete_at.
    now destruct c.
  - rewrite delete_prefix by apply Hpre.
    transitivity (a ++ []); [|apply app_nil_r]. f_equal. rewrite delete_at.
    cbn [line_comment Ascii.eqb slash Bool.eqb andb].
    pose proof (to_eol_end b [] Hb (or_intror eq_refl)) as He.
    rewrite app_nil_r in He. rewrite He.
    cbn [Nat.add drop]. now rewrite drop_all.
Qed.

Lemma head_strip_line (s : list ascii) :
  head (strip_line s) = Some slash -> head s = Some slash.
Proof.
  unfold strip_line. destruct s as [|c rest]; [discriminate|]. rewrite delete_at.
  destruct (line_comment (c :: rest)) as [[|k]|] eqn:E; try easy.
  apply line_comment_Some in E as (r & [= -> _] & _). reflexivity.
Qed.

Lemma strip_line_clean (n : nat) (s : list ascii) :
  (length s <= n)%nat -> ~ adjacent slash slash (strip_line s).
Proof.
  revert s. induction n as [|n IH]; intros s Hn.
  - destruct s; [apply adjacent_nil|simpl in Hn; lia].
  - destruct s as [|c rest]; [apply adjacent_nil|]. simpl in Hn.
    unfold strip_line. rewrite delete_at.
    assert (Hkeep : ~ adjacent slash slash (strip_line rest)) by (apply IH; lia).
    assert (Hemit : line_comment (c :: rest) = None \/ line_comment (c :: rest) = Some O ->
              ~ adjacent slash slash (c :: strip_line rest)).
    { intros Hm [[-> Hh]|H]%adjacent_cons; [|contradiction].
      apply head_strip_line in Hh. destruct rest as [|d rest]; [discriminate|].
      injection Hh as ->. destruct Hm as [Hm|Hm]; discriminate Hm. }
    destruct (line_comment (c :: rest)) as [[|k]|] eqn:E.
    + apply Hemit. now right.
    + apply (IH (drop k rest)). rewrite length_drop. lia.
    + apply Hemit. now left.
Qed.

(** X19. No line comment is left: the text handed to the JSON parser has no
    two slashes in a row. *)
Theorem no_double_slash_left (content : list ascii) :
  ~ adjacent slash slash (strip_comments content).
Proof. unfold strip_comments. now apply (strip_line_clean (length (strip_block content))). Qed.

Lemma newlines_cons (c : ascii) (l : list ascii) :
  newlines (c :: l) = ((if Ascii.eqb c newline then 1 else 0) + newlines l)%nat.
Proof.
  unfold newlines. rewrite filter_cons.
  destruct (decide (c = newline)) as [->|Hc]; [reflexivity|].
  apply Ascii.eqb_neq in Hc. now rewrite Hc.
Qed.

Lemma newlines_drop_eol (l : list ascii) : newlines (drop (to_eol l) l) = newlines l.
Proof.
  induction l as [|c l IH]; [reflexivity|]. cbn [to_eol].
  destruct (Ascii.eqb c newline) eqn:E; [reflexivity|].
  cbn [drop]. now rewrite IH, newlines_cons, E.
Qed.

Lemma strip_line_newlines (n : nat) (s : list ascii) :
  (length s <= n)%nat -> newlines (strip_line s) = newlines s.
Proof.
  revert s. induction n as [|n IH]; intros s Hn.
  - destruct s; [reflexivity|simpl in Hn; lia].
  - destruct s as [|c rest]; [reflexivity|]. simpl in Hn.
    unfold strip_line. rewrite delete_at.
    assert (Hkeep : newlines (c :: strip_line rest) = newlines (c :: rest)).
    { rewrite !newlines_cons. f_equal. apply IH. lia. }
    destruct (line_comment (c :: rest)) as [[|k]|] eqn:E; try exact Hkeep.
    apply line_comment_Some in E as (r & [= -> ->] & [= ->]).
    fold (strip_line (drop (S (to_eol r)) (slash :: r))). cbn [drop].
    simpl in Hn. rewrite IH by (rewrite length_drop; lia).
    now rewrite newlines_drop_eol, !newlines_cons.
Qed.

(** X20. Line comments never join two lines: the line-comment substitution
    keeps every newline of the text, so what is left has as many lines as
    before. *)
Theorem line_pass_keeps_lines (content : list ascii) :
  newlines (strip_line content) = newlines content.
Proof. now apply (strip_line_newlines (length content)). Qed.

(** X21. The line-comment substitution is idempotent; so running it on its
    own output changes nothing. *)
Theorem line_pass_idempotent (content : list ascii) :
  strip_line (strip_line content) = strip_line content.
Proof.
  apply delete_nowhere, (no_match_without slash slash); [apply line_comment_starts|].
  now apply (strip_line_clean (length content)).
Qed.

End JsoncFacts.

(** * The scenario table ([main], lines 74-89)

    [main] is embedded with its effects made explicit: the command line is a
    list of strings, [load_jsonc] is a function from the path to the plan
    ([None] when it raises), the generator is threaded from one scenario to
    the next as the global numpy generator is, and what is printed is the list
    of lines.  The text of a line is not modelled: a row is kept as the three
    values the format string is given. *)

(** Line 88: the number of trials of every scenario. *)
Definition trial_count : nat := Z.to_nat 100000.

(** Lines 78-82. *)
Definition scenarios : list Scenario :=
  [ {| name := "Expected"; avg_return := Q2Qc (10 # 100); vol := Q2Qc (15 # 100);
       raise_rate := Q2Qc (3 # 100); inflation := Q2Qc (2 # 100) |};
    {| name := "Conservative"; avg_return := Q2Qc (8 # 100); vol := Q2Qc (18 # 100);
       raise_rate := Q2Qc (2 # 100); inflation := Q2Qc (3 # 100) |};
    {| name := "Catastrophic"; avg_return := Q2Qc (6 # 100); vol := Q2Qc (20 # 100);
       raise_rate := Q2Qc (2 # 100); inflation := Q2Qc (3 # 100) |} ].

(** A printed line: the header (line 84), the rule (line 85), or a row
    (line 89) with the scenario's name, success rate and median. *)
Inductive line : Type :=
| Header
| Rule
| Row (scenario : string) (rate median : option Qc).

(** How [main] ends: it returns, [load_jsonc] raises, or a run raises. *)
Inductive outcome : Type :=
| Returned
| LoadFailed
| Raised (e : exn).

Section Main.

Context {G : Type} (draw : G -> Qc -> Qc -> Qc * G).

(** Lines 87-89: the loop over the scenarios, from generator state [g]. *)
Fixpoint run_scenarios (g : G) (plan : value) (scens : list Scenario)
  : list line * outcome :=
  match scens with
  | [] => ([], Returned)
  | s :: rest =>
      match run_sim draw g trial_count plan s, simulate draw g trial_count plan s with
      | Ok (rate, median), Ok st =>
          let '(printed, o) := run_scenarios (rng st) plan rest in
          (Row (name s) rate median :: printed, o)
      | Raise e, _ | _, Raise e => ([], Raised e)
      end
  end.

(** Lines 74-89. *)
Definition main (load_jsonc : string -> option value) (g : G) (argv : list string)
  : list line * outcome :=
  match argv with
  | _ :: path :: _ =>
      match load_jsonc path with
      | None => ([], LoadFailed)
      | Some plan =>
          let '(printed, o) := run_scenarios g plan scenarios in
          (Header :: Rule :: printed, o)
      end
  | _ => ([], Returned)
  end.

End Main.

Section MainFacts.

Context {G : Type} (draw : G -> Qc -> Qc -> Qc * G).

Lemma trial_count_pos : (1 <= trial_count)%nat.
Proof. unfold trial_count. lia. Qed.

(** The outputs of a run of at least one trial that returns. *)
Lemma run_sim_outputs (g : G) (n_sims : nat) (plan : value) (scen : Scenario)
    (rate med : option Qc) :
  (1 <= n_sims)%nat -> run_sim draw g n_sims plan scen = Ok (rate, med) ->
  exists r m, rate = Some r /\ med = Some m /\ 0 <= r /\ r <= Num.of_Z 100.
Proof.
  intros Hn H. unfold run_sim in H. apply bind_Ok in H as (st & Hst & [= <- <-]).
  destruct (simulate_sized draw g n_sims plan scen st Hst) as [Hlen _].
  pose proof (StatsFacts.count_pos_le (portfolios st)) as Hc. rewrite Hlen in Hc.
  destruct (StatsFacts.rate_bounds _ _ Hc ltac:(lia)) as [H0 H100].
  unfold Stats.success_rate, Stats.median. rewrite Hlen.
  destruct n_sims as [|n']; [lia|]. destruct (Nat.odd (S n')); eauto 10.
Qed.

(** A row of the table for scenario [s]: its name, a rate between 0 and 100
    and a median. *)
Definition row_of (s : Scenario) (l : line) : Prop :=
  exists r m, l = Row (name s) (Some r) (Some m) /\ 0 <= r /\ r <= Num.of_Z 100.

Lemma run_scenarios_accepts (plan : value) (scens : list Scenario) (g : G) :
  complete plan -> Forall (fun s => 0 <= vol s) scens ->
  exists rows, run_scenarios draw g plan scens = (rows, Returned) /\
    Forall2 (fun l s => row_of s l) rows scens.
Proof.
  intros Hplan Hvol. revert g. induction Hvol as [|s scens Hs _ IH]; intros g.
  - exists []. split; [reflexivity|constructor].
  - destruct (complete_run_sim draw g trial_count plan s Hplan Hs) as (rate & med & Hrun).
    destruct (run_sim_outputs g trial_count plan s rate med trial_count_pos Hrun)
      as (r & m & -> & -> & Hr0 & Hr100).
    cbn [run_scenarios]. rewrite Hrun.
    destruct (simulate draw g trial_count plan s) as [st|e] eqn:Hst.
    2:{ unfold run_sim in Hrun. rewrite Hst in Hrun. discriminate. }
    destruct (IH (rng st)) as (rows & -> & Hrows).
    eexists. split; [reflexivity|]. constructor; [|exact Hrows]. now exists r, m.
Qed.

End MainFacts.

(** X22. The table of a complete plan.  Given a path whose file loads to a
    plan with all nine fields, each a number, [main] returns after printing
    the header, the rule and exactly three rows, for Expected, Conservative
    and Catastrophic in this order, each with a success rate between 0 and
    100 and a median; whatever the generator does. *)
Theorem main_prints_table {G : Type} (draw : G -> Qc -> Qc -> Qc * G)
    (load_jsonc : string -> option value) (g : G)
    (prog path : string) (more : list string) (plan : value) :
  load_jsonc path = Some plan -> complete plan ->
  exists r1 m1 r2 m2 r3 m3,
    main draw load_jsonc g (prog :: path :: more)
    = ([Header; Rule;
        Row "Expected" (Some r1) (Some m1);
        Row "Conservative" (Some r2) (Some m2);
        Row "Catastrophic" (Some r3) (Some m3)], Returned) /\
    (0 <= r1 /\ r1 <= Num.of_Z 100) /\
    (0 <= r2 /\ r2 <= Num.of_Z 100) /\
    (0 <= r3 /\ r3 <= Num.of_Z 100).
Proof.
  intros Hload Hplan.
  assert (Hvol : Forall (fun s => 0 <= vol s) scenarios).
  { unfold scenarios. repeat constructor; now apply NumFacts.leb_le. }
  destruct (run_scenarios_accepts draw plan scenarios g Hplan Hvol) as (rows & Hrun & Hrows).
  unfold main. rewrite Hload, Hrun. unfold scenarios in Hrows.
  apply Forall2_cons_inv_r in Hrows as (l1 & rows1 & (r1 & m1 & -> & H1) & Hrows & ->).
  apply Forall2_cons_inv_r in Hrows as (l2 & rows2 & (r2 & m2 & -> & H2) & Hrows & ->).
  apply Forall2_cons_inv_r in Hrows as (l3 & rows3 & (r3 & m3 & -> & H3) & Hrows & ->).
  apply Forall2_nil_inv_r in Hrows as ->.
  now exists r1, m1, r2, m2, r3, m3.
Qed.

(** X23. A plan is only looked at by the first run.  When a field read
    before the loop is missing or not a number, [main] has already printed
    the header and the rule when the exception of the first scenario ends it;
    no row is printed. *)
Theorem main_fails_after_header {G : Type} (draw : G -> Qc -> Qc -> Qc * G)
    (load_jsonc : string -> option value) (g : G)
    (prog path : string) (more : list string) (plan : value) (e : exn) :
  load_jsonc path = Some plan -> prepare plan = Raise e ->
  main draw load_jsonc g (prog :: path :: more) = ([Header; Rule], Raised e).
Proof.
  intros Hload Hp. unfold main. rewrite Hload. unfold scenarios.
  cbn [run_scenarios]. unfold run_sim, simulate. now rewrite Hp.
Qed.

(** * Worked runs for the further properties *)

Lemma year_acts_pointwise_witness :
  exists st st',
    state_after tape_draw [] 2 demo_plan demo_down 1 = Ok st /\
    state_after tape_draw [] 2 demo_plan demo_down 2 = Ok st' /\
    exists s cf,
      prepare demo_plan = Ok s /\
      year_cash_flow demo_plan demo_down s 2 = Ok cf /\
      forall i, (i < 2)%nat ->
        exists r b a,
          returns_from tape_draw 2 demo_down (rng st) !! i = Some r /\
          portfolios st !! i = Some b /\ skips st !! i = Some a /\
          portfolios st' !! i = Some (trial_year cf r b a).1 /\
          skips st' !! i = Some (trial_year cf r b a).2.
Proof.
  eexists. eexists. split; [reflexivity|]. split; [reflexivity|].
  eapply (year_acts_pointwise tape_draw [] 2 demo_plan demo_down 1); reflexivity.
Defined.

(** Three other trials, the middle one like the first of [demo_population]. *)
Definition other_population : @population (list Qc) :=
  {| rng := [];
     portfolios := [Num.of_Z 5; Num.of_Z 102000; Num.of_Z 7];
     skips := [1; 2; 3]%Z |}.

Lemma trial_independent_witness :
  exists st1' st2' r,
    year_step tape_draw 2 demo_plan demo_down demo_setup 2 demo_population = Ok st1' /\
    year_step tape_draw 3 demo_plan demo_down demo_setup 2 other_population = Ok st2' /\
    returns_from tape_draw 2 demo_down (rng demo_population) !! 0%nat = Some r /\
    returns_from tape_draw 3 demo_down (rng other_population) !! 1%nat = Some r /\
    portfolios demo_population !! 0%nat = Some (Num.of_Z 102000) /\
    portfolios other_population !! 1%nat = Some (Num.of_Z 102000) /\
    skips demo_population !! 0%nat = Some 2%Z /\
    skips other_population !! 1%nat = Some 2%Z /\
    portfolios st1' !! 0%nat = portfolios st2' !! 1%nat /\
    skips st1' !! 0%nat = skips st2' !! 1%nat.
Proof.
  eexists. eexists. eexists. do 8 (split; [reflexivity|]).
  eapply (trial_independent tape_draw tape_draw 2 3 demo_plan demo_down demo_setup 2
            demo_population _ other_population _ 0 1 _ (Num.of_Z 102000) 2%Z);
    reflexivity.
Defined.

Lemma depleted_stays_depleted_witness :
  exists st st' s nw,
    prepare spender_plan = Ok s /\
    state_after tape_draw [] 1 spender_plan demo_down 2 = Ok st /\
    state_after tape_draw [] 1 spender_plan demo_down 3 = Ok st' /\
    year_cash_flow spender_plan demo_down s 3 = Ok (Withdrawal nw) /\ 0 <= nw /\
    portfolios st !! 0%nat = Some 0 /\ skips st !! 0%nat = Some 0%Z /\
    portfolios st' !! 0%nat = Some 0 /\ skips st' !! 0%nat = Some 0%Z.
Proof.
  eexists. eexists. eexists. eexists.
  split; [reflexivity|]. split; [reflexivity|]. split; [reflexivity|].
  split; [reflexivity|]. split; [now apply NumFacts.leb_le|].
  split; [reflexivity|]. split; [reflexivity|].
  eapply (depleted_stays_depleted tape_draw [] 1 spender_plan demo_down 2);
    first [reflexivity | now apply NumFacts.leb_le].
Defined.

Lemma skip_spent_iff_witness :
  exists st st' s nw r b,
    prepare demo_plan = Ok s /\
    state_after tape_draw [] 1 demo_plan demo_down 1 = Ok st /\
    state_after tape_draw [] 1 demo_plan demo_down 2 = Ok st' /\
    year_cash_flow demo_plan demo_down s 2 = Ok (Withdrawal nw) /\
    returns_from tape_draw 1 demo_down (rng st) !! 0%nat = Some r /\
    portfolios st !! 0%nat = Some b /\ skips st !! 0%nat = Some 2%Z /\
    (skips st' !! 0%nat = Some (2 - 1)%Z <-> r <= 0 /\ (0 < 2)%Z /\ 0 < b * (1 + r)) /\
    (~ (r <= 0 /\ (0 < 2)%Z /\ 0 < b * (1 + r)) -> skips st' !! 0%nat = Some 2%Z).
Proof.
  do 6 eexists. do 7 (split; [reflexivity|]).
  eapply (skip_spent_iff tape_draw [] 1 demo_plan demo_down 1); reflexivity.
Defined.

Lemma skips_untouched_before_retirement_witness :
  exists st,
    prepare demo_plan = Ok demo_setup /\
    num_of (ret_age demo_setup) = Ok (Num.of_Z 66) /\
    age_at demo_setup 1 <= Num.of_Z 66 /\
    state_after tape_draw demo_tape 2 demo_plan expected 1 = Ok st /\
    skips st = replicate 2 (emergency_savings demo_setup).
Proof.
  eexists. split; [reflexivity|]. split; [reflexivity|].
  split; [now apply NumFacts.leb_le|]. split; [reflexivity|].
  eapply (skips_untouched_before_retirement tape_draw demo_tape 2 demo_plan expected
            demo_setup (Num.of_Z 66) 1);
    first [reflexivity | now apply NumFacts.leb_le].
Defined.

Lemma population_keeps_size_witness :
  exists st,
    state_after tape_draw demo_tape 2 demo_plan expected 3 = Ok st /\
    length (portfolios st) = 2%nat /\ length (skips st) = 2%nat /\
    length (returns_from tape_draw 2 expected (rng st)) = 2%nat.
Proof.
  eexists. split; [reflexivity|].
  eapply (population_keeps_size tape_draw demo_tape 2 demo_plan expected 3). reflexivity.
Defined.

Lemma tape_draw_flat (r : Qc) (tape : list Qc) :
  (tape_draw tape (avg_return (flat_scenario r)) (vol (flat_scenario r))).1 = r.
Proof. destruct tape as [|z tape]; simpl; [reflexivity|ring]. Qed.

Lemma fixed_returns_uniform_witness :
  exists st,
    (forall g', (tape_draw g' (avg_return demo_down) (vol demo_down)).1 = Q2Qc (-1 # 10)) /\
    state_after tape_draw demo_tape 3 demo_plan demo_down 3 = Ok st /\
    exists b a, portfolios st = replicate 3 b /\ skips st = replicate 3 a.
Proof.
  eexists. split; [intros g'; apply tape_draw_flat|]. split; [reflexivity|].
  eapply (fixed_returns_uniform tape_draw demo_tape 3 demo_plan demo_down (Q2Qc (-1 # 10)) 3).
  - intros g'. apply tape_draw_flat.
  - reflexivity.
Defined.

Lemma median_not_negative_witness :
  exists rate m,
    prepare demo_plan = Ok demo_setup /\
    (1 <= Num.arange_len (years demo_setup))%nat /\
    run_sim tape_draw demo_tape 2 demo_plan expected = Ok (rate, Some m) /\
    0 <= m.
Proof.
  eexists. eexists. split; [reflexivity|]. split; [vm_compute; lia|].
  split; [reflexivity|].
  eapply (median_not_negative tape_draw demo_tape 2 demo_plan expected demo_setup);
    first [reflexivity | vm_compute; lia].
Defined.

Lemma success_rate_extremes_witness :
  exists rate med,
    (1 <= 2)%nat /\
    run_sim tape_draw demo_tape 2 demo_plan expected = Ok (Some rate, med) /\
    exists st : @population (list Qc),
      simulate tape_draw demo_tape 2 demo_plan expected = Ok st /\
      (rate = Num.of_Z 100 <-> forall b, b ∈ portfolios st -> 0 < b) /\
      (rate = 0 <-> forall b, b ∈ portfolios st -> b <= 0).
Proof.
  eexists. eexists. split; [lia|]. split; [reflexivity|].
  eapply (success_rate_extremes tape_draw demo_tape 2 demo_plan expected); [lia|reflexivity].
Defined.

(** Retired from the start: aged 70, retirement age 66, simulated to 75. *)
Definition retired_plan : value := plan_of 70 66 75 100000 1000 0 2 40000 0.
Definition retired_setup : setup :=
  {| curr_age := Num.of_Z 70; ret_age := VInt 66;
     years := Num.of_Z 75 - Num.of_Z 70;
     portfolio_current := Num.of_Z 100000; emergency_savings := 2 |}.

Lemma retired_ignores_deposit_witness :
  prepare retired_plan = Ok retired_setup /\
  prepare (without retired_plan "PORTFOLIO" "MONTHLY DEPOSIT") = Ok retired_setup /\
  (forall y, net_withdrawal (without retired_plan "PORTFOLIO" "MONTHLY DEPOSIT") expected y
             = net_withdrawal retired_plan expected y) /\
  num_of (ret_age retired_setup) = Ok (Num.of_Z 66) /\
  Num.of_Z 66 < age_at retired_setup 1 /\
  run_sim tape_draw demo_tape 2 (without retired_plan "PORTFOLIO" "MONTHLY DEPOSIT") expected
  = run_sim tape_draw demo_tape 2 retired_plan expected.
Proof.
  split; [reflexivity|]. split; [reflexivity|]. split; [intros y; reflexivity|].
  split; [reflexivity|]. split; [reflexivity|].
  apply (retired_ignores_deposit tape_draw demo_tape 2 expected retired_plan
           (without retired_plan "PORTFOLIO" "MONTHLY DEPOSIT") retired_setup (Num.of_Z 66));
    first [reflexivity | intros y; reflexivity].
Defined.

(** Far from retirement: aged 30, retirement age 66, simulated to 33. *)
Definition young_plan : value := plan_of 30 66 33 100000 1000 0 2 40000 0.
Definition young_setup : setup :=
  {| curr_age := Num.of_Z 30; ret_age := VInt 66;
     years := Num.of_Z 33 - Num.of_Z 30;
     portfolio_current := Num.of_Z 100000; emergency_savings := 2 |}.

Lemma saver_ignores_spending_witness :
  prepare young_plan = Ok young_setup /\
  prepare (without young_plan "RETIREMENT" "ANNUAL SPEND") = Ok young_setup /\
  (forall y, contribution (without young_plan "RETIREMENT" "ANNUAL SPEND") expected y
             = contribution young_plan expected y) /\
  num_of (ret_age young_setup) = Ok (Num.of_Z 66) /\
  age_at young_setup (Num.arange_len (years young_setup)) <= Num.of_Z 66 /\
  run_sim tape_draw demo_tape 2 (without young_plan "RETIREMENT" "ANNUAL SPEND") expected
  = run_sim tape_draw demo_tape 2 young_plan expected.
Proof.
  split; [reflexivity|]. split; [reflexivity|]. split; [intros y; reflexivity|].
  split; [reflexivity|]. split; [now apply NumFacts.leb_le|].
  apply (saver_ignores_spending tape_draw demo_tape 2 expected young_plan
           (without young_plan "RETIREMENT" "ANNUAL SPEND") young_setup (Num.of_Z 66));
    first [reflexivity | intros y; reflexivity | now apply NumFacts.leb_le].
Defined.

Lemma cash_flow_error_surfaces_witness :
  exists st,
    prepare (without demo_plan "RETIREMENT" "ANNUAL SPEND") = Ok demo_setup /\
    0 <= vol expected /\
    state_after tape_draw demo_tape 2 (without demo_plan "RETIREMENT" "ANNUAL SPEND")
      expected 1 = Ok st /\
    year_cash_flow (without demo_plan "RETIREMENT" "ANNUAL SPEND") expected demo_setup 2
      = Raise (KeyError "ANNUAL SPEND") /\
    (2 <= Num.arange_len (years demo_setup))%nat /\
    (exists mr st1, market_step tape_draw 2 expected st = Ok (mr, st1)) /\
    state_after tape_draw demo_tape 2 (without demo_plan "RETIREMENT" "ANNUAL SPEND")
      expected 2 = Raise (KeyError "ANNUAL SPEND") /\
    run_sim tape_draw demo_tape 2 (without demo_plan "RETIREMENT" "ANNUAL SPEND") expected
      = Raise (KeyError "ANNUAL SPEND").
Proof.
  eexists. split; [reflexivity|]. split; [now apply NumFacts.leb_le|].
  split; [reflexivity|]. split; [reflexivity|]. split; [vm_compute; lia|].
  eapply (cash_flow_error_surfaces tape_draw demo_tape 2 expected
            (without demo_plan "RETIREMENT" "ANNUAL SPEND") demo_setup 1);
    first [reflexivity | now apply NumFacts.leb_le | vm_compute; lia].
Defined.

(** Texts for the comment stripper. *)
Definition chars (s : string) : list ascii := String.list_ascii_of_string s.

(** No pair [x y] in a text that is written out: try every position. *)
Ltac no_pair :=
  let i := fresh "i" in
  let H1 := fresh "H" in
  let H2 := fresh "H" in
  intros (i & H1 & H2);
  repeat first [discriminate | destruct i as [|i]].

Ltac not_in :=
  let H := fresh "H" in
  intros H;
  repeat (apply elem_of_cons in H as [H|H]; [discriminate|]);
  now apply elem_of_nil in H.

Lemma comment_free_unchanged_witness :
  ~ Jsonc.adjacent Jsonc.slash Jsonc.star (chars "{a/b: 1 * 2}") /\
  ~ Jsonc.adjacent Jsonc.slash Jsonc.slash (chars "{a/b: 1 * 2}") /\
  Jsonc.strip_comments (chars "{a/b: 1 * 2}") = chars "{a/b: 1 * 2}".
Proof.
  assert (H1 : ~ Jsonc.adjacent Jsonc.slash Jsonc.star (chars "{a/b: 1 * 2}")) by no_pair.
  assert (H2 : ~ Jsonc.adjacent Jsonc.slash Jsonc.slash (chars "{a/b: 1 * 2}")) by no_pair.
  split; [exact H1|]. split; [exact H2|].
  exact (JsoncFacts.comment_free_unchanged _ H1 H2).
Defined.

Lemma unterminated_block_kept_witness :
  ~ Jsonc.adjacent Jsonc.star Jsonc.slash (chars "{} /* never closed") /\
  Jsonc.strip_block (chars "{} /* never closed") = chars "{} /* never closed".
Proof.
  assert (H : ~ Jsonc.adjacent Jsonc.star Jsonc.slash (chars "{} /* never closed"))
    by no_pair.
  split; [exact H|]. exact (JsoncFacts.unterminated_block_kept _ H).
Defined.

Lemma block_comment_removed_witness :
  ~ Jsonc.adjacent Jsonc.slash Jsonc.star (chars "{ ") /\
  ~ Jsonc.adjacent Jsonc.star Jsonc.slash (chars " // age ") /\
  Jsonc.strip_block
    (chars "{ " ++ Jsonc.slash :: Jsonc.star :: chars " // age " ++
     Jsonc.star :: Jsonc.slash :: chars " */ }")
  = chars "{ " ++ Jsonc.strip_block (chars " */ }").
Proof.
  assert (H1 : ~ Jsonc.adjacent Jsonc.slash Jsonc.star (chars "{ ")) by no_pair.
  assert (H2 : ~ Jsonc.adjacent Jsonc.star Jsonc.slash (chars " // age ")) by no_pair.
  split; [exact H1|]. split; [exact H2|].
  exact (JsoncFacts.block_comment_removed _ _ _ H1 H2).
Defined.

(** A JSON member whose string value is a URL, cut at the two slashes of the
    URL: the key, the colon and the value up to [http:] before them, the
    host, the closing quote and a comma behind them. *)
Definition quote : ascii := "034"%char.
Definition url_head : list ascii :=
  quote :: chars "url" ++ quote :: chars ": " ++ quote :: chars "http:".
Definition url_tail : list ascii := chars "example.org" ++ quote :: chars ",".

Lemma line_comment_removed_witness :
  ~ Jsonc.adjacent Jsonc.slash Jsonc.slash url_head /\
  last url_head <> Some Jsonc.slash /\
  (Jsonc.newline ∉ url_tail) /\
  Jsonc.strip_line
    (url_head ++ Jsonc.slash :: Jsonc.slash :: url_tail ++ Jsonc.newline :: chars "}")
  = url_head ++ Jsonc.newline :: Jsonc.strip_line (chars "}") /\
  Jsonc.strip_line (url_head ++ Jsonc.slash :: Jsonc.slash :: url_tail) = url_head.
Proof.
  assert (H1 : ~ Jsonc.adjacent Jsonc.slash Jsonc.slash url_head) by no_pair.
  assert (H2 : last url_head <> Some Jsonc.slash) by discriminate.
  assert (H3 : Jsonc.newline ∉ url_tail) by not_in.
  split; [exact H1|]. split; [exact H2|]. split; [exact H3|].
  exact (JsoncFacts.line_comment_removed _ _ (chars "}") H1 H2 H3).
Defined.

Lemma main_prints_table_witness :
  (fun _ : string => Some demo_plan) "plan.jsonc"%string = Some demo_plan /\
  complete demo_plan /\
  exists r1 m1 r2 m2 r3 m3,
    main tape_draw (fun _ => Some demo_plan) demo_tape ["sim.py"; "plan.jsonc"]%string
    = ([Header; Rule;
        Row "Expected" (Some r1) (Some m1);
        Row "Conservative" (Some r2) (Some m2);
        Row "Catastrophic" (Some r3) (Some m3)], Returned) /\
    (0 <= r1 /\ r1 <= Num.of_Z 100) /\
    (0 <= r2 /\ r2 <= Num.of_Z 100) /\
    (0 <= r3 /\ r3 <= Num.of_Z 100).
Proof.
  split; [reflexivity|]. split; [exact demo_plan_complete|].
  exact (main_prints_table tape_draw (fun _ => Some demo_plan) demo_tape
           "sim.py" "plan.jsonc" [] demo_plan eq_refl demo_plan_complete).
Defined.

Lemma main_fails_after_header_witness :
  (fun _ : string => Some (without demo_plan "RETIREMENT" "EMERGENCY SAVINGS"))
    "plan.jsonc"%string
  = Some (without demo_plan "RETIREMENT" "EMERGENCY SAVINGS") /\
  prepare (without demo_plan "RETIREMENT" "EMERGENCY SAVINGS")
  = Raise (KeyError "EMERGENCY SAVINGS") /\
  main tape_draw (fun _ => Some (without demo_plan "RETIREMENT" "EMERGENCY SAVINGS"))
    demo_tape ["sim.py"; "plan.jsonc"]%string
  = ([Header; Rule], Raised (KeyError "EMERGENCY SAVINGS")).
Proof.
  split; [reflexivity|]. split; [reflexivity|].
  exact (main_fails_after_header tape_draw
           (fun _ => Some (without demo_plan "RETIREMENT" "EMERGENCY SAVINGS")) demo_tape
           "sim.py" "plan.jsonc" [] _ _ eq_refl eq_refl).
Defined.

(** ** The comment stripper, evaluated *)

(** Block comments go first, so a [//] inside one does not hide its end;
    then each line is cut at its first [//]. *)
Example strip_both_kinds :
  Jsonc.strip_comments
    (chars "{ /* age // in years */ 65, // soon" ++ Jsonc.newline :: chars "}")
  = chars "{  65, " ++ Jsonc.newline :: chars "}".
Proof. reflexivity. Qed.

(** The opening and the closing of a block comment do not share the star. *)
Example slash_star_slash_is_no_comment :
  Jsonc.strip_comments (chars "/*/ x") = chars "/*/ x".
Proof. reflexivity. Qed.

(** Deleting a block comment can put a new one together; a second pass would
    delete it. *)
Example block_pass_not_idempotent :
  Jsonc.strip_block (chars "a//* x */* y */b") = chars "a/* y */b" /\
  Jsonc.strip_block (chars "a/* y */b") = chars "ab".
Proof. split; reflexivity. Qed.

(** * The two outputs together *)

Module OrderFacts.

Import StatsFacts.

(** In ascending order the balances above zero come last: the entry at
    position [i] is positive exactly from the number of the others on. *)
Lemma sorted_positive_from (s : list Qc) :
  StronglySorted Qcle s ->
  forall i x, s !! i = Some x ->
    (0 < x <-> (length s - Stats.count_pos s <= i)%nat).
Proof.
  induction 1 as [|y s Hs IH Hy]; intros i x Hx; [now rewrite lookup_nil in Hx|].
  pose proof (count_pos_le s) as Hc.
  destruct (Qclt_le_dec 0 y) as [Hpos|Hneg].
  - assert (Hall : forall b, b ∈ y :: s -> 0 < b).
    { intros b [->|Hb]%elem_of_cons; [exact Hpos|].
      eapply Qclt_le_trans; [exact Hpos|]. rewrite Forall_forall in Hy. now apply Hy. }
    rewrite (proj2 (count_pos_all (y :: s)) Hall). split; [lia|].
    intros _. eapply Hall, list_elem_of_lookup_2, Hx.
  - assert (Hcount : Stats.count_pos (y :: s) = Stats.count_pos s).
    { unfold Stats.count_pos. rewrite filter_cons.
      destruct (decide (Num.ltb 0 y = true)) as [E|E]; [|reflexivity].
      apply NumFacts.ltb_lt in E. exfalso. exact (Qcle_not_lt _ _ Hneg E). }
    rewrite Hcount. cbn [length]. destruct i as [|i]; simpl in Hx.
    + injection Hx as <-. split; [|lia].
      intros Hlt. exfalso. exact (Qcle_not_lt _ _ Hneg Hlt).
    + rewrite (IH i x Hx). lia.
Qed.

(** A rate above, or below, 50 in terms of the count. *)
Lemma rate_above_half (c n : nat) :
  (0 < n)%nat ->
  Num.of_Z 50 < Num.of_nat c / Num.of_nat n * Num.of_Z 100 -> (n < 2 * c)%nat.
Proof.
  intros Hn.
  assert (HN : (0 < inject_Z (Z.of_nat n))%Q).
  { change 0%Q with (inject_Z 0). rewrite <- Zlt_Qlt. lia. }
  assert (HX : (0 < / inject_Z (Z.of_nat n))%Q) by now apply Qinv_lt_0_compat.
  assert (HNX : (inject_Z (Z.of_nat n) * / inject_Z (Z.of_nat n) == 1)%Q).
  { apply Qmult_inv_r. intros E. rewrite E in HN. now apply Qlt_irrefl in HN. }
  unfold Qclt, Qcdiv, Qcmult, Qcinv, Num.of_nat, Num.of_Z, Q2Qc. simpl this.
  rewrite !Qred_correct. change (inject_Z 100) with 100%Q. change (inject_Z 50) with 50%Q.
  intros H. destruct (le_lt_dec (2 * c) n) as [Hle|Hlt]; [exfalso|exact Hlt].
  assert (HC : (2 * inject_Z (Z.of_nat c) <= inject_Z (Z.of_nat n))%Q).
  { change 2%Q with (inject_Z 2). rewrite <- inject_Z_mult, <- Zle_Qle. lia. }
  set (C := inject_Z (Z.of_nat c)) in *. set (N := inject_Z (Z.of_nat n)) in *.
  set (X := (/ N)%Q) in *. nra.
Qed.

Lemma rate_below_half (c n : nat) :
  (0 < n)%nat ->
  Num.of_nat c / Num.of_nat n * Num.of_Z 100 < Num.of_Z 50 -> (2 * c < n)%nat.
Proof.
  intros Hn.
  assert (HN : (0 < inject_Z (Z.of_nat n))%Q).
  { change 0%Q with (inject_Z 0). rewrite <- Zlt_Qlt. lia. }
  assert (HX : (0 < / inject_Z (Z.of_nat n))%Q) by now apply Qinv_lt_0_compat.
  assert (HNX : (inject_Z (Z.of_nat n) * / inject_Z (Z.of_nat n) == 1)%Q).
  { apply Qmult_inv_r. intros E. rewrite E in HN. now apply Qlt_irrefl in HN. }
  unfold Qclt, Qcdiv, Qcmult, Qcinv, Num.of_nat, Num.of_Z, Q2Qc. simpl this.
  rewrite !Qred_correct. change (inject_Z 100) with 100%Q. change (inject_Z 50) with 50%Q.
  intros H. destruct (le_lt_dec n (2 * c)) as [Hle|Hlt]; [exfalso|exact Hlt].
  assert (HC : (inject_Z (Z.of_nat n) <= 2 * inject_Z (Z.of_nat c))%Q).
  { change 2%Q with (inject_Z 2). rewrite <- inject_Z_mult, <- Zle_Qle. lia. }
  set (C := inject_Z (Z.of_nat c)) in *. set (N := inject_Z (Z.of_nat n)) in *.
  set (X := (/ N)%Q) in *. nra.
Qed.

End OrderFacts.

Lemma half_positive (a b : Qc) : 0 <= a -> 0 < b -> 0 < (a + b) / Num.of_Z 2.
Proof.
  intros Ha Hb.
  assert (H : 0 <= (a + b) / Num.of_Z 2).
  { unfold Qcdiv. rewrite <- (Qcmult_0_l (/ Num.of_Z 2)). apply Qcmult_le_compat_r.
    - rewrite <- (Qcplus_0_l 0). apply Qcplus_le_compat; [exact Ha|now apply Qclt_le_weak].
    - now unfold Qcle. }
  apply Qcle_lt_or_eq in H as [H|H]; [exact H|].
  exfalso. symmetry in H. unfold Qcdiv in H. apply Qcmult_integral in H as [H|H].
  - assert (b = - a) by (rewrite <- (Qcplus_0_l (- a)), <- H; ring). subst b.
    apply Qcopp_le_compat in Ha. change (- 0) with 0 in Ha.
    exact (Qcle_not_lt _ _ Ha Hb).
  - discriminate H.
Qed.

Lemma odd_half (n : nat) : Nat.odd n = true -> n = (2 * (n / 2) + 1)%nat.
Proof.
  intros H. apply Nat.odd_spec in H as [k ->].
  replace (2 * k + 1)%nat with (1 + k * 2)%nat by lia.
  rewrite Nat.div_add by lia. simpl. lia.
Qed.

Lemma even_half (n : nat) : Nat.odd n = false -> n = (2 * (n / 2))%nat.
Proof.
  intros H. assert (He : Nat.even n = true) by (rewrite <- Nat.negb_odd, H; reflexivity).
  apply Nat.even_spec in He as [k ->].
  replace (2 * k)%nat with (0 + k * 2)%nat by lia.
  rewrite Nat.div_add by lia. simpl. lia.
Qed.

(** The median of balances that are not negative, against the number of
    those above zero: positive when they are more than half, zero when they
    are fewer than half. *)
Lemma median_against_count (l : list Qc) (m : Qc) :
  (forall b, b ∈ l -> 0 <= b) -> Stats.median l = Some m ->
  ((length l < 2 * Stats.count_pos l)%nat -> 0 < m) /\
  ((2 * Stats.count_pos l < length l)%nat -> m = 0).
Proof.
  intros Hl H. unfold Stats.median in H.
  pose proof (StatsFacts.sort_perm l) as Hperm.
  pose proof (StatsFacts.sort_length l) as Hlen.
  pose proof (StatsFacts.count_pos_permutation _ _ Hperm) as Hcount.
  assert (Hs : StronglySorted Qcle (Stats.sort l)).
  { apply Sorted.Sorted_StronglySorted; [exact Qcle_trans|apply StatsFacts.sort_sorted]. }
  assert (Hnn : forall i x, Stats.sort l !! i = Some x -> 0 <= x).
  { intros i x Hx. apply Hl. rewrite <- Hperm. eapply list_elem_of_lookup_2, Hx. }
  assert (Hpos : forall i x, Stats.sort l !! i = Some x ->
            (0 < x <-> (length l - Stats.count_pos l <= i)%nat)).
  { intros i x Hx. rewrite <- Hlen, <- Hcount. now apply OrderFacts.sorted_positive_from. }
  assert (Hzero : forall i x, Stats.sort l !! i = Some x ->
            (i < length l - Stats.count_pos l)%nat -> x = 0).
  { intros i x Hx Hi. apply Qcle_antisym; [|eapply Hnn, Hx].
    apply Qcnot_lt_le. intros Hlt. apply (Hpos i x Hx) in Hlt. lia. }
  assert (Hat : forall i, (i < length l)%nat ->
            Stats.sort l !! i = Some (nth i (Stats.sort l) 0)).
  { intros i Hi. destruct (nth_lookup_or_length (Stats.sort l) i 0); [assumption|lia]. }
  pose proof (StatsFacts.count_pos_le l) as Hc.
  destruct (length l) as [|n'] eqn:En; [discriminate|]. remember (S n') as n eqn:Hn.
  destruct (Nat.odd n) eqn:Eodd; injection H as <-.
  - pose proof (odd_half n Eodd) as Hh.
    assert (Hi : (n / 2 < n)%nat) by lia. split.
    + intros Hmore. apply (Hpos _ _ (Hat _ Hi)). lia.
    + intros Hless. apply (Hzero _ _ (Hat _ Hi)). lia.
  - pose proof (even_half n Eodd) as Hh.
    assert (Hi : (n / 2 < n)%nat) by lia.
    assert (Hj : (n / 2 - 1 < n)%nat) by lia.
    pose proof (Hnn _ _ (Hat _ Hj)) as Ha. split.
    + intros Hmore. assert (Hb : 0 < nth (n / 2) (Stats.sort l) 0)
        by (apply (Hpos _ _ (Hat _ Hi)); lia).
      now apply half_positive.
    + intros Hless. change (Nat.divmod n 1 0 1).1 with (n / 2)%nat.
      rewrite (Hzero _ _ (Hat _ Hj)) by lia. rewrite (Hzero _ _ (Hat _ Hi)) by lia.
      now apply Qc_is_canon.
Qed.

Section OutputsTogether.

Context {G : Type} (draw : G -> Qc -> Qc -> Qc * G).
Variables (g : G) (n_sims : nat) (plan : value) (scen : Scenario).

(** X24. The two outputs agree.  When at least one year is simulated, a
    success rate above 50 comes with a median ending balance above zero, and
    a success rate below 50 with a median ending balance of zero. *)
Theorem median_follows_rate (s : setup) (rate m : Qc) :
  prepare plan = Ok s -> (1 <= Num.arange_len (years s))%nat ->
  run_sim draw g n_sims plan scen = Ok (Some rate, Some m) ->
  (Num.of_Z 50 < rate -> 0 < m) /\ (rate < Num.of_Z 50 -> m = 0).
Proof.
  intros Hs Hy H. unfold run_sim in H. apply bind_Ok in H as (st & Hst & [= Hr Hm]).
  destruct (simulate_sized draw g n_sims plan scen st Hst) as [Hlen _].
  assert (Hall : forall b, b ∈ portfolios st -> 0 <= b)
    by (intros b; now apply (simulate_floor draw g n_sims plan scen s st b)).
  destruct (median_against_count (portfolios st) m Hall Hm) as [Hmore Hless].
  unfold Stats.success_rate in Hr. destruct n_sims as [|n'] eqn:En; [discriminate|].
  rewrite <- En in *. injection Hr as <-. rewrite Hlen in Hmore, Hless. split.
  - intros H. apply Hmore, OrderFacts.rate_above_half; [lia|exact H].
  - intros H. apply Hless, OrderFacts.rate_below_half; [lia|exact H].
Qed.

End OutputsTogether.

Lemma median_follows_rate_witness :
  exists rate m,
    prepare demo_plan = Ok demo_setup /\
    (1 <= Num.arange_len (years demo_setup))%nat /\
    run_sim tape_draw demo_tape 3 demo_plan expected = Ok (Some rate, Some m) /\
    (Num.of_Z 50 < rate -> 0 < m) /\ (rate < Num.of_Z 50 -> m = 0).
Proof.
  eexists. eexists. split; [reflexivity|]. split; [vm_compute; lia|].
  split; [reflexivity|].
  eapply (median_follows_rate tape_draw demo_tape 3 demo_plan expected demo_setup);
    first [reflexivity | vm_compute; lia].
Defined.

(** * Ruin is final *)

Lemma trial_year_depleted (nw r : Qc) (a : Z) :
  0 <= nw -> trial_year (Withdrawal nw) r 0 a = (0, a).
Proof.
  intros Hnw. unfold trial_year. cbn zeta. replace (0 * (1 + r)) with 0 by ring.
  assert (Hm : Num.max (0 - nw) 0 = 0).
  { unfold Num.max. assert (Num.leb (0 - nw) 0 = true) as ->; [|reflexivity].
    apply NumFacts.leb_le, Qcle_minus_iff.
    replace (0 + - (0 - nw)) with nw by ring. exact Hnw. }
  rewrite Hm. change (Num.ltb 0 0) with false. change (Num.max 0 0) with 0.
  now destruct (Num.ltb 0 r || (a <=? 0)%Z).
Qed.

Section Ruin.

Context {G : Type} (draw : G -> Qc -> Qc -> Qc * G).
Variables (g : G) (n_sims : nat) (plan : value) (scen : Scenario).

(** X25. Ruin is final.  When the net withdrawal is never negative (spending
    is not below income), a trial that is at 0 at the end of a year after
    which only retirement years follow stays at 0 in every later year of the
    run, and never spends another skip. *)
Theorem ruin_is_final (s : setup) (ra : Qc) (k : nat) (st : @population G)
    (i : nat) (a : Z) :
  prepare plan = Ok s -> num_of (ret_age s) = Ok ra -> ra < age_at s (S k) ->
  (forall y nw, net_withdrawal plan scen y = Ok nw -> 0 <= nw) ->
  state_after draw g n_sims plan scen k = Ok st ->
  portfolios st !! i = Some 0 -> skips st !! i = Some a ->
  forall j st', state_after draw g n_sims plan scen (k + j) = Ok st' ->
    portfolios st' !! i = Some 0 /\ skips st' !! i = Some a.
Proof.
  intros Hs Hra Hage Hnw H Hb Ha j.
  induction j as [|j IH]; intros st' H'.
  - rewrite Nat.add_0_r in H'. assert (st' = st) as -> by congruence. now split.
  - replace (k + S j)%nat with (S (k + j)) in H' by lia.
    pose proof H' as H''. apply state_after_step in H'' as (s' & st0 & Hs' & H0 & Hy).
    assert (s' = s) as -> by congruence.
    destruct (IH st0 H0) as [Hb0 Ha0].
    assert (Hi : (i < n_sims)%nat).
    { destruct (state_after_sized draw g n_sims plan scen _ _ H0) as [<- _].
      eapply lookup_lt_Some, Hb0. }
    destruct (trial_state draw g n_sims plan scen (k + j) st0 i H0 Hi)
      as (r & _ & _ & Hr & _ & _).
    destruct (year_step_trial draw n_sims plan scen s (S (k + j)) st0 st' i r 0 a
                Hy Hr Hb0 Ha0) as (cf & Hcf & Hp & Hsk).
    unfold year_cash_flow in Hcf. rewrite Hra, bind_Ok_l in Hcf.
    assert (Hret : Num.leb (age_at s (S (k + j))) ra = false).
    { apply NumFacts.leb_gt. eapply Qclt_le_trans; [exact Hage|]. apply age_at_le. lia. }
    rewrite Hret in Hcf. apply bind_Ok in Hcf as (nw & Hnw' & [= <-]).
    rewrite (trial_year_depleted nw r a (Hnw _ _ Hnw')) in Hp, Hsk. now split.
Qed.

End Ruin.

Lemma spender_withdrawal (y : nat) :
  net_withdrawal spender_plan demo_down y = Ok (Num.of_Z 200000).
Proof.
  transitivity (Ok (Num.of_Z 200000 * (1 + 0) ^ y - 0 * (1 + 0) ^ y - 0 * (1 + 0) ^ y));
    [reflexivity|].
  f_equal. replace (1 + 0) with 1 by ring. rewrite Qcpower_1. ring.
Qed.

Definition spender_setup : setup :=
  {| curr_age := Num.of_Z 65; ret_age := VInt 66; years := Num.of_Z 68 - Num.of_Z 65;
     portfolio_current := Num.of_Z 100000; emergency_savings := 0 |}.

Lemma ruin_is_final_witness :
  exists st st',
    prepare spender_plan = Ok spender_setup /\
    num_of (ret_age spender_setup) = Ok (Num.of_Z 66) /\
    Num.of_Z 66 < age_at spender_setup 3 /\
    (forall y nw, net_withdrawal spender_plan demo_down y = Ok nw -> 0 <= nw) /\
    state_after tape_draw [] 1 spender_plan demo_down 2 = Ok st /\
    portfolios st !! 0%nat = Some 0 /\ skips st !! 0%nat = Some 0%Z /\
    state_after tape_draw [] 1 spender_plan demo_down (2 + 1) = Ok st' /\
    portfolios st' !! 0%nat = Some 0 /\ skips st' !! 0%nat = Some 0%Z.
Proof.
  assert (Hnw : forall y nw, net_withdrawal spender_plan demo_down y = Ok nw -> 0 <= nw).
  { intros y nw Hnw. rewrite spender_withdrawal in Hnw. injection Hnw as <-.
    now apply NumFacts.leb_le. }
  eexists. eexists. split; [reflexivity|]. split; [reflexivity|].
  split; [reflexivity|]. split; [exact Hnw|]. split; [reflexivity|].
  split; [reflexivity|]. split; [reflexivity|]. split; [reflexivity|].
  eapply (ruin_is_final tape_draw [] 1 spender_plan demo_down spender_setup
            (Num.of_Z 66) 2 _ 0 0%Z) with (j := 1%nat);
    first [reflexivity | exact Hnw].
Defined.

(** * The success rate in binary64 *)

From Stdlib Require Floats Uint63.

Module Binary64.

(** An integer as numpy converts it to [float64] (exact below 2^53). *)
Definition of_count (c : nat) : PrimFloat.float :=
  PrimFloat.of_uint63 (Uint63.of_Z (Z.of_nat c)).

(** Line 67 as the program evaluates it: [np.sum(portfolios > 0) / n_sims],
    a division rounded to the nearest binary64, then [* 100], a
    multiplication rounded to the nearest binary64. *)
Definition success_rate (count n_sims : nat) : PrimFloat.float :=
  PrimFloat.mul (PrimFloat.div (of_count count) (of_count n_sims)) (of_count 100).

End Binary64.

(** Aged 65 and retired, simulated to 66: one retirement year, no skips,
    a balance of 100 and a withdrawal of 105. *)
Definition split_plan : value := plan_of 65 65 66 100 0 0 0 105 0.

(** Returns taken off the tape as they are. *)
Definition unit_normal : Scenario :=
  {| name := "Unit"; avg_return := 0; vol := 1; raise_rate := 0; inflation := 0 |}.

(** Eleven trials gain 10% and end with 5; nine lose half and are floored. *)
Definition split_tape : list Qc :=
  replicate 11 (Q2Qc (1 # 10)) ++ replicate 9 (Q2Qc (-1 # 2)).

(** C6 fails as stated.  In a run of 20 trials of which 11 end above zero,
    100 * 11 / 20 is 55, and the rate the program computes, 11 / 20 * 100 in
    binary64, is above 55 (it is 55.00000000000001). *)
Lemma rate_is_rounded :
  exists st : @population (list Qc),
    simulate tape_draw split_tape 20 split_plan unit_normal = Ok st /\
    length (portfolios st) = 20%nat /\
    Stats.count_pos (portfolios st) = 11%nat /\
    Num.of_Z 100 * Num.of_nat 11 / Num.of_nat 20 = Num.of_Z 55 /\
    PrimFloat.ltb (Binary64.of_count 55) (Binary64.success_rate 11 20) = true.
Proof.
  eexists. split; [reflexivity|]. split; [reflexivity|]. split; [reflexivity|].
  split; [qc_eq|]. reflexivity.
Qed.
